(** * mariadb-mcp: query admission, configuration and execution pipeline

    A shallow embedding of [src/validators.ts] and [src/connection.ts].

    Strings are sequences of UTF-16 code units, [list N].  Module-level
    state ([pool], [connection]) and the calls made on the database driver
    are threaded explicitly through a small state/exception monad. *)

From Stdlib Require Import ZArith NArith Lia.
From Stdlib Require Import Strings.String Strings.Ascii.
From Stdlib Require Import Numbers.DecimalString Numbers.DecimalPos.
From Stdlib Require Import Numbers.DecimalN.
From stdpp Require Import base option list strings gmap.

Set Warnings "-register-all".

Local Open Scope N_scope.

(** ** JavaScript strings *)

Abbreviation jsstring := (list N).

(** The code units of an ASCII literal of the source. *)
Definition js (s : string) : jsstring :=
  N_of_ascii <$> list_ascii_of_string s.

Module Char.
Definition tab : N := 9.
Definition lf : N := 10.
Definition cr : N := 13.
Definition space : N := 32.
Definition star : N := 42.
Definition plus : N := 43.
Definition minus : N := 45.
Definition slash : N := 47.
Definition semicolon : N := 59.
Definition underscore : N := 95.
Definition backtick : N := 96.
End Char.

(** ECMAScript LineTerminator: the code units that [.] does not match and
    before which [$] matches under the [m] flag. *)
Definition isLineTerminator (c : N) : bool :=
  (c =? 0x0A) || (c =? 0x0D) || (c =? 0x2028) || (c =? 0x2029).

(** The class [\s] (WhiteSpace and LineTerminator), which is also the set
    [String.prototype.trim] strips and [parseInt] skips. *)
Definition isWhiteSpace (c : N) : bool :=
  ((0x09 <=? c) && (c <=? 0x0D))
  || (c =? 0x20) || (c =? 0xA0) || (c =? 0x1680)
  || ((0x2000 <=? c) && (c <=? 0x200A))
  || (c =? 0x2028) || (c =? 0x2029) || (c =? 0x202F) || (c =? 0x205F)
  || (c =? 0x3000) || (c =? 0xFEFF).

(** [s.startsWith(p)] *)
Fixpoint startsWith (p s : jsstring) : bool :=
  match p, s with
  | [], _ => true
  | _ :: _, [] => false
  | a :: p', b :: s' => (a =? b) && startsWith p' s'
  end.

(** [s.endsWith(p)] *)
Definition endsWith (p s : jsstring) : bool :=
  startsWith (reverse p) (reverse s).

(** [s.includes(p)] *)
Fixpoint includes (p s : jsstring) : bool :=
  startsWith p s ||
  match s with
  | [] => false
  | _ :: s' => includes p s'
  end.

(** [a === b] on strings *)
Definition strictEquals (a b : jsstring) : bool := bool_decide (a = b).

(** [s.trim()] *)
Fixpoint trimStart (s : jsstring) : jsstring :=
  match s with
  | [] => []
  | c :: r => if isWhiteSpace c then trimStart r else s
  end.

Definition trimEnd (s : jsstring) : jsstring :=
  reverse (trimStart (reverse s)).

Definition trim (s : jsstring) : jsstring := trimEnd (trimStart s).

(** ** validators.ts *)

Module Validators.

(** [BASE_ALLOWED_COMMANDS] *)
Definition BASE_ALLOWED_COMMANDS : list jsstring :=
  [js "SELECT"; js "SHOW"; js "DESCRIBE"; js "DESC"; js "EXPLAIN"].

(** [CONDITIONAL_COMMANDS] *)
Module CONDITIONAL_COMMANDS.
Definition INSERT : jsstring := js "INSERT".
Definition UPDATE : jsstring := js "UPDATE".
Definition DELETE : jsstring := js "DELETE".
End CONDITIONAL_COMMANDS.

(** [DISALLOWED_COMMANDS] *)
Definition DISALLOWED_COMMANDS : list jsstring :=
  [js "DROP"; js "CREATE"; js "ALTER"; js "TRUNCATE"; js "RENAME";
   js "REPLACE"; js "GRANT"; js "REVOKE"; js "LOCK"; js "UNLOCK";
   js "CALL"; js "EXEC"; js "EXECUTE"; js "START"; js "BEGIN";
   js "COMMIT"; js "ROLLBACK"].

(** [.replace(/--.*$/gm, "")].  A match starts at every [--]; the greedy
    [.*] runs to the next line terminator (or the end of the text), where
    [$] holds under the [m] flag, so the match is the rest of the line.
    [inComment] is true while the scan is inside such a match. *)
Fixpoint removeLineComments (inComment : bool) (s : jsstring) : jsstring :=
  match s with
  | [] => []
  | c :: r =>
      if inComment then
        if isLineTerminator c then c :: removeLineComments false r
        else removeLineComments true r
      else
        match r with
        | d :: r' =>
            if (c =? Char.minus) && (d =? Char.minus)
            then removeLineComments true r'
            else c :: removeLineComments false r
        | [] => [c]
        end
  end.

(** Whether the text holds [*/] somewhere: the lazy [[\s\S]*?\*\/] of the
    block-comment pattern can only match when it does. *)
Definition hasBlockEnd (s : jsstring) : bool :=
  includes [Char.star; Char.slash] s.

(** [.replace(/\/\*[\s\S]*?\*\//g, "")].  A match starts at a [/*] that
    is followed, after those two code units, by some [*/], and ends with
    the first such [*/]; a [/*] that is never closed is kept.
    [inComment] is true while the scan is inside a match. *)
Fixpoint removeBlockComments (inComment : bool) (s : jsstring) : jsstring :=
  match s with
  | [] => []
  | c :: r =>
      match r with
      | d :: r' =>
          if inComment then
            if (c =? Char.star) && (d =? Char.slash)
            then removeBlockComments false r'
            else removeBlockComments true r
          else
            if (c =? Char.slash) && (d =? Char.star) && hasBlockEnd r'
            then removeBlockComments true r'
            else c :: removeBlockComments false r
      | [] => if inComment then [] else [c]
      end
  end.

(** [.replace(/\s+/g, " ")]: every maximal run of white space becomes one
    U+0020.  [inRun] is true when the previous code unit was white
    space. *)
Fixpoint collapseWhiteSpace (inRun : bool) (s : jsstring) : jsstring :=
  match s with
  | [] => []
  | c :: r =>
      if isWhiteSpace c then
        if inRun then collapseWhiteSpace true r
        else Char.space :: collapseWhiteSpace true r
      else c :: collapseWhiteSpace false r
  end.

(** [new RegExp(`(^|\\s)${cmd}(\\s|$)`).test(text)] for a [cmd] made of
    letters.  [commandAt] is the part after the [(^|\s)] group: [cmd]
    followed by a white-space code unit or by the end of the text. *)
Definition commandAt (cmd s : jsstring) : bool :=
  startsWith cmd s &&
  match drop (length cmd) s with
  | [] => true
  | c :: _ => isWhiteSpace c
  end.

Fixpoint commandAfterSpace (cmd s : jsstring) : bool :=
  match s with
  | [] => false
  | c :: r => (isWhiteSpace c && commandAt cmd r) || commandAfterSpace cmd r
  end.

Definition testCommand (cmd text : jsstring) : bool :=
  commandAt cmd text || commandAfterSpace cmd text.

(** [process.env.NAME === "true"] *)
Definition envFlag (env : gmap string (list N)) (name : string) : bool :=
  bool_decide (env !! name = Some (js "true")).

Section WithCaseMapping.

(** [String.prototype.toUpperCase]: the Unicode case mapping of the
    JavaScript engine. *)
Variable toUpperCase : jsstring -> jsstring.

(** The normalised working copy of the query text. *)
Definition normalizeQuery (query : jsstring) : jsstring :=
  toUpperCase
    (trim
       (collapseWhiteSpace false
          (removeBlockComments false
             (removeLineComments false query)))).

Definition allowedCommands (env : gmap string (list N)) : list jsstring :=
  BASE_ALLOWED_COMMANDS
    ++ (if envFlag env "MARIADB_ALLOW_INSERT"
        then [CONDITIONAL_COMMANDS.INSERT] else [])
    ++ (if envFlag env "MARIADB_ALLOW_UPDATE"
        then [CONDITIONAL_COMMANDS.UPDATE] else [])
    ++ (if envFlag env "MARIADB_ALLOW_DELETE"
        then [CONDITIONAL_COMMANDS.DELETE] else []).

Definition startsWithAllowed (env : gmap string (list N))
    (normalizedQuery : jsstring) : bool :=
  existsb
    (fun cmd =>
       startsWith (cmd ++ [Char.space]) normalizedQuery
       || strictEquals normalizedQuery cmd)
    (allowedCommands env).

Definition containsDisallowed (normalizedQuery : jsstring) : bool :=
  existsb (fun cmd => testCommand cmd normalizedQuery) DISALLOWED_COMMANDS.

Definition hasMultipleStatements (normalizedQuery : jsstring) : bool :=
  includes [Char.semicolon] normalizedQuery
  && negb (endsWith [Char.semicolon] normalizedQuery).

(** [isAlloowedQuery].  The compatibility scan
    ([checkMariaDB10_0_Compatibility]) and the UPDATE diagnostics only
    write to the log and do not take part in the result. *)
Definition isAlloowedQuery (env : gmap string (list N))
    (query : jsstring) : bool :=
  let normalizedQuery := normalizeQuery query in
  startsWithAllowed env normalizedQuery
  && negb (containsDisallowed normalizedQuery)
  && negb (hasMultipleStatements normalizedQuery).

End WithCaseMapping.

(** The case mapping on Basic Latin text: [a]-[z] become [A]-[Z] and
    every other ASCII code unit is kept.  It agrees with [toUpperCase]
    on every string of ASCII code units. *)
Definition asciiUpper (c : N) : N :=
  if (97 <=? c) && (c <=? 122) then c - 32 else c.

Definition toUpperCaseAscii (s : jsstring) : jsstring := asciiUpper <$> s.

End Validators.

Import Validators.

(** ** connection.ts *)

Module Connection.

(** [DEFAULT_TIMEOUT], in milliseconds *)
Definition DEFAULT_TIMEOUT : N := 10000.

(** [DEFAULT_ROW_LIMIT] *)
Definition DEFAULT_ROW_LIMIT : nat := 1000.

(** *** Values *)

(** A Number: [Finite s m e] is the Number value nearest to the real
    [(-1)^s * m * 2^e]. *)
Inductive JsNumber : Type :=
| NaN
| Infinity (negative : bool)
| Finite (negative : bool) (m : N) (e : Z).

(** The values a driver result is made of.  [JObject] lists the own
    enumerable string-keyed properties of a plain object in the order
    [Object.entries] yields them.  A [Date] has no such property; a
    [Buffer] has one per byte, keyed by its index. *)
Inductive JsValue : Type :=
| JNull
| JUndefined
| JBoolean (b : bool)
| JNumber (x : JsNumber)
| JString (s : jsstring)
| JBigInt (z : Z)
| JArray (items : list JsValue)
| JObject (props : list (jsstring * JsValue))
| JDate (time : Z)
| JBuffer (bytes : list N).

(** [BigInt.prototype.toString()]: the decimal digits, after a [-] for a
    negative value. *)
Definition bigIntToString (z : Z) : jsstring :=
  js (NilZero.string_of_int (Z.to_int z)).

(** The property key of an array index. *)
Definition indexKey (i : nat) : jsstring :=
  js (NilZero.string_of_uint (Nat.to_uint i)).

(** [Object.entries] of an array-like: one entry per index. *)
Definition indexedEntries {A B} (f : A -> B) (l : list A)
    : list (jsstring * B) :=
  imap (fun i x => (indexKey i, f x)) l.

(** [convertBigIntToString] *)
Fixpoint convertBigIntToString (obj : JsValue) : JsValue :=
  match obj with
  | JNull | JUndefined => obj
  | JBigInt z => JString (bigIntToString z)
  | JArray items => JArray (map convertBigIntToString items)
  | JObject props =>
      JObject (map (fun '(key, value) => (key, convertBigIntToString value))
                   props)
  | JDate _ => JObject []
  | JBuffer bytes =>
      JObject (indexedEntries (fun b => JNumber (Finite false b 0)) bytes)
  | JBoolean _ | JNumber _ | JString _ => obj
  end.

(** *** Configuration *)

Inductive Exception : Type :=
| Error (message : string)
| SqlError (errno : Z).

(** [MariaDBConfig] of [types.ts], as [getConfigFromEnv] builds it. *)
Record MariaDBConfig : Type := {
  host : jsstring;
  port : JsNumber;
  user : jsstring;
  password : jsstring;
  database : option jsstring;
  allow_insert : bool;
  allow_update : bool;
  allow_delete : bool;
}.

(** Truthiness of a [string | undefined]: defined and not empty. *)
Definition truthy (v : option jsstring) : bool :=
  match v with
  | Some (_ :: _) => true
  | _ => false
  end.

Definition isDigit (c : N) : bool := (48 <=? c) && (c <=? 57).

(** The longest prefix of decimal digits. *)
Fixpoint digitPrefix (s : jsstring) : jsstring :=
  match s with
  | [] => []
  | c :: r => if isDigit c then c :: digitPrefix r else []
  end.

(** Reading one more decimal digit after the number [acc]. *)
Definition digitStep (acc c : N) : N := 10 * acc + (c - 48).

(** The integer written by a sequence of decimal digits. *)
Definition digitsValue (ds : jsstring) : N := foldl digitStep 0 ds.

(** [parseInt(text, 10)]: skip leading white space, read an optional
    sign, then the longest run of decimal digits; [NaN] when there is no
    digit.  The result is the Number for the signed integer read. *)
Definition parseInt10 (text : jsstring) : JsNumber :=
  let s := trimStart text in
  let negative :=
    match s with c :: _ => c =? Char.minus | [] => false end in
  let s' :=
    match s with
    | c :: r => if (c =? Char.plus) || (c =? Char.minus) then r else s
    | [] => s
    end in
  match digitPrefix s' with
  | [] => NaN
  | ds => Finite negative (digitsValue ds) 0
  end.

(** [getConfigFromEnv] *)
Definition getConfigFromEnv (env : gmap string (list N))
    : Exception + MariaDBConfig :=
  let host := env !! "MARIADB_HOST" in
  let portStr := env !! "MARIADB_PORT" in
  let user := env !! "MARIADB_USER" in
  let password := env !! "MARIADB_PASSWORD" in
  let database := env !! "MARIADB_DATABASE" in
  let allow_insert := envFlag env "MARIADB_ALLOW_INSERT" in
  let allow_update := envFlag env "MARIADB_ALLOW_UPDATE" in
  let allow_delete := envFlag env "MARIADB_ALLOW_DELETE" in
  match host with
  | Some ((_ :: _) as host) =>
      match user with
      | Some ((_ :: _) as user) =>
          match password with
          | Some ((_ :: _) as password) =>
              let port :=
                match portStr with
                | Some ((_ :: _) as portStr) => parseInt10 portStr
                | _ => Finite false 3306 0
                end in
              inr {| host := host; port := port; user := user;
                     password := password; database := database;
                     allow_insert := allow_insert;
                     allow_update := allow_update;
                     allow_delete := allow_delete |}
          | _ => inl (Error "MARIADB_PASSWORD environment variable is required")
          end
      | _ => inl (Error "MARIADB_USER environment variable is required")
      end
  | _ => inl (Error "MARIADB_HOST environment variable is required")
  end.

(** *** The driver: pool, sessions, statements *)

(** The options [createConnectionPool] hands to [mariadb.createPool]. *)
Record PoolOptions : Type := {
  optHost : jsstring;
  optPort : JsNumber;
  optUser : jsstring;
  optPassword : jsstring;
  optDatabase : option jsstring;
  connectionLimit : nat;
  connectTimeout : N;
  acquireTimeout : N;
  charset : string;
  bulk : bool;
  sql_mode : string;
  permitSetMultiParamEntries : bool;
  compress : bool;
  timezone : string;
}.

(** A pool of the driver.  Sessions are numbered in the order they were
    opened; [idle] is the queue of sessions waiting in the pool, [active]
    the sessions checked out, [opened] the number of sessions opened so
    far. *)
Record Pool : Type := {
  options : PoolOptions;
  idle : list nat;
  active : list nat;
  opened : nat;
}.

(** The two shapes of [connection.query] calls in [executeQuery]: a bare
    text, and an options object whose remaining keys come from spreading
    [params]. *)
Inductive Statement : Type :=
| Text (sql : jsstring)
| WithOptions (metaAsArray namedPlaceholders : bool) (sql : jsstring)
    (spread : list (jsstring * JsValue)).

(** What the driver was asked to do, in order. *)
Inductive Event : Type :=
| Acquired (session : nat)
| Sent (session : nat) (statement : Statement)
| Released (session : nat).

Record FieldInfo : Type := {
  fieldName : jsstring;
  columnType : N;
}.

(** The database side: whether opening a new session fails (with which
    error number), and what a session answers to a statement: the error
    number of a statement the server rejects, which leaves the session
    open, or rows and column metadata.  Both may depend on everything the
    driver did before. *)
Record Server : Type := {
  refuses : list Event -> option Z;
  answers : list Event -> nat -> Statement -> Z + JsValue * list FieldInfo;
}.

(** Error number of the driver when no session became available within
    [acquireTimeout]. *)
Definition ER_GET_CONNECTION_TIMEOUT : Z := 45028.

(** *** Module state and control flow *)

(** The module-level variables [pool] and [connection], and the log of
    driver calls. *)
Record ModuleState : Type := {
  pool : option Pool;
  connection : option nat;
  calls : list Event;
}.

Definition initialState : ModuleState :=
  {| pool := None; connection := None; calls := [] |}.

Inductive Completion (A : Type) : Type :=
| Return (value : A)
| Throw (error : Exception).

Arguments Return {A} value.
Arguments Throw {A} error.

(** A computation on the module state that returns or throws. *)
Definition M (A : Type) : Type := ModuleState -> Completion A * ModuleState.

#[global] Instance M_ret : MRet M := fun A v st => (Return v, st).

#[global] Instance M_bind : MBind M := fun A B f m st =>
  match m st with
  | (Return v, st') => f v st'
  | (Throw e, st') => (Throw e, st')
  end.

Definition throw {A} (e : Exception) : M A := fun st => (Throw e, st).

(** [try { body } catch (error) { handler }] *)
Definition tryCatch {A} (body : M A) (handler : Exception -> M A) : M A :=
  fun st =>
    match body st with
    | (Return v, st') => (Return v, st')
    | (Throw e, st') => handler e st'
    end.

(** [try { body } finally { finalizer }] *)
Definition tryFinally {A} (body : M A) (finalizer : M unit) : M A :=
  fun st =>
    let '(completion, st') := body st in
    match finalizer st' with
    | (Return _, st'') => (completion, st'')
    | (Throw e, st'') => (Throw e, st'')
    end.

Definition readPool : M (option Pool) := fun st => (Return (pool st), st).

Definition writePool (p : option Pool) : M unit := fun st =>
  (Return (), {| pool := p; connection := connection st; calls := calls st |}).

Definition readConnection : M (option nat) := fun st =>
  (Return (connection st), st).

Definition writeConnection (c : option nat) : M unit := fun st =>
  (Return (), {| pool := pool st; connection := c; calls := calls st |}).

Definition record (ev : Event) : M unit := fun st =>
  (Return (),
   {| pool := pool st; connection := connection st;
      calls := calls st ++ [ev] |}).

Definition history : M (list Event) := fun st => (Return (calls st), st).

(** [pool.getConnection()]: the oldest idle session if there is one,
    else a new session while fewer than [connectionLimit] exist, else a
    time-out. *)
Definition poolGetConnection (srv : Server) : M nat :=
  p ← readPool;
  match p with
  | None => throw (Error "TypeError")
  | Some p =>
      match idle p with
      | s :: rest =>
          writePool (Some {| options := options p; idle := rest;
                             active := active p ++ [s];
                             opened := opened p |});;
          record (Acquired s);;
          mret s
      | [] =>
          if decide (length (active p) < connectionLimit (options p))%nat then
            h ← history;
            match refuses srv h with
            | Some errno => throw (SqlError errno)
            | None =>
                let s := opened p in
                writePool (Some {| options := options p; idle := [];
                                   active := active p ++ [s];
                                   opened := S (opened p) |});;
                record (Acquired s);;
                mret s
            end
          else throw (SqlError ER_GET_CONNECTION_TIMEOUT)
      end
  end.

(** [connection.release()]: the session, still open, goes back to the
    idle queue of the pool. *)
Definition release (s : nat) : M unit :=
  p ← readPool;
  match p with
  | Some p =>
      writePool (Some {| options := options p; idle := idle p ++ [s];
                         active := filter (fun s' => s' ≠ s) (active p);
                         opened := opened p |})
  | None => mret ()
  end;;
  record (Released s).

(** [connection.query(statement)] *)
Definition query (srv : Server) (s : nat) (statement : Statement)
    : M (JsValue * list FieldInfo) :=
  h ← history;
  record (Sent s statement);;
  match answers srv h s statement with
  | inl errno => throw (SqlError errno)
  | inr result => mret result
  end.

(** [if (connection) { connection.release(); connection = null; }] *)
Definition releaseHeldConnection : M unit :=
  c ← readConnection;
  match c with
  | Some s => release s;; writeConnection None
  | None => mret ()
  end.

Definition poolOptions (config : MariaDBConfig) : PoolOptions :=
  {| optHost := host config;
     optPort := port config;
     optUser := user config;
     optPassword := password config;
     optDatabase := database config;
     connectionLimit := 2;
     connectTimeout := DEFAULT_TIMEOUT;
     acquireTimeout := DEFAULT_TIMEOUT;
     charset := "utf8mb4";
     bulk := false;
     sql_mode := "TRADITIONAL";
     permitSetMultiParamEntries := false;
     compress := false;
     timezone := "local" |}.

(** [mariadb.createPool(options)]: a pool with no session yet. *)
Definition createPool (opts : PoolOptions) : Pool :=
  {| options := opts; idle := []; active := []; opened := 0 |}.

(** [createConnectionPool] *)
Definition createConnectionPool (env : gmap string (list N)) : M Pool :=
  match getConfigFromEnv env with
  | inl e => throw e
  | inr config =>
      p ← readPool;
      match p with
      | Some p => mret p
      | None =>
          let p := createPool (poolOptions config) in
          writePool (Some p);;
          mret p
      end
  end.

(** The statement that selects [database]. *)
Definition useStatement (database : jsstring) : Statement :=
  Text (js "USE " ++ [Char.backtick] ++ database ++ [Char.backtick]).

(** The row limit: [Array.isArray(rows) && rows.length > DEFAULT_ROW_LIMIT
    ? rows.slice(0, DEFAULT_ROW_LIMIT) : rows]. *)
Definition limitRows (rows : JsValue) : JsValue :=
  match rows with
  | JArray items =>
      if decide (DEFAULT_ROW_LIMIT < length items)%nat
      then JArray (take DEFAULT_ROW_LIMIT items)
      else rows
  | _ => rows
  end.

Section WithCaseMapping.

Variable toUpperCase : jsstring -> jsstring.

(** [executeQuery] *)
Definition executeQuery (srv : Server) (env : gmap string (list N))
    (sql : jsstring) (params : list JsValue) (database : option jsstring)
    : M (JsValue * list FieldInfo) :=
  p ← readPool;
  (if p is None
   then p ← createConnectionPool env; writePool (Some p)
   else mret ());;
  tryFinally
    (tryCatch
       (c ← readConnection;
        s ← (match c with
             | Some s => mret s
             | None =>
                 s ← poolGetConnection srv;
                 writeConnection (Some s);;
                 mret s
             end);
        match database with
        | Some ((_ :: _) as database) => query srv s (useStatement database);; mret ()
        | _ => mret ()
        end;;
        (if isAlloowedQuery toUpperCase env sql
         then mret ()
         else throw (Error "Query not allowed"));;
        '(rows, fields) ← query srv s
          (WithOptions true false sql (indexedEntries id params));
        let limitedRows := limitRows rows in
        let serializedRows := convertBigIntToString limitedRows in
        mret (serializedRows, fields))
       (fun error => releaseHeldConnection;; throw error))
    releaseHeldConnection.

End WithCaseMapping.

End Connection.

Import Connection.

(** ** Vocabulary of the specification *)

Module Spec.

(** A code unit that can be part of a keyword or an identifier. *)
Definition isWordChar (c : N) : bool :=
  ((48 <=? c) && (c <=? 57))
  || ((65 <=? c) && (c <=? 90))
  || ((97 <=? c) && (c <=? 122))
  || (c =? Char.underscore).

(** A neighbour of an occurrence delimits a word when there is none (the
    text starts or ends there) or it is not a word character. *)
Definition atBoundary (neighbour : option N) : bool :=
  match neighbour with
  | None => true
  | Some c => negb (isWordChar c)
  end.

(** [word] occurs in [text] as a standalone word: the occurrence is not
    glued to a word character on either side. *)
Definition standaloneWord (word text : jsstring) : Prop :=
  exists pre post,
    text = pre ++ word ++ post
    /\ atBoundary (last pre) = true
    /\ atBoundary (head post) = true.

(** A neighbour that is white space, or none. *)
Definition atSpace (neighbour : option N) : bool :=
  match neighbour with
  | None => true
  | Some c => isWhiteSpace c
  end.

(** [word] occurs in [text] with white space, or an end of the text, on
    both sides. *)
Definition delimitedWord (word text : jsstring) : Prop :=
  exists pre post,
    text = pre ++ word ++ post
    /\ atSpace (last pre) = true
    /\ atSpace (head post) = true.

(** The same, as a scan of [text]; [prev] is the code unit before it. *)
Fixpoint occursStandalone (word : jsstring) (prev : option N)
    (text : jsstring) : bool :=
  (atBoundary prev && startsWith word text
   && atBoundary (head (drop (length word) text)))
  || match text with
     | [] => false
     | c :: r => occursStandalone word (Some c) r
     end.

(** No administrative or destructive command occurs as a standalone word. *)
Definition noDisallowedWord (text : jsstring) : Prop :=
  forall cmd, In cmd DISALLOWED_COMMANDS -> ~ standaloneWord cmd text.

(** The first white-space delimited token of a normalised text, in which
    every white-space run is a single U+0020. *)
Fixpoint leadingToken (text : jsstring) : jsstring :=
  match text with
  | [] => []
  | c :: r => if c =? Char.space then [] else c :: leadingToken r
  end.

(** The separator occurs exactly once, as the last code unit. *)
Definition soleTrailingSeparator (text : jsstring) : Prop :=
  exists body, text = body ++ [Char.semicolon] /\ ~ In Char.semicolon body.

(** The multi-statement condition in the words of the specification: the
    text contains a statement separator that is not solely a single
    trailing one. *)
Definition multiStatement (text : jsstring) : Prop :=
  In Char.semicolon text /\ ~ soleTrailingSeparator text.

(** The conditionally writable commands, each with the environment
    variable that enables it. *)
Definition conditionalCommands : list (jsstring * string) :=
  [(CONDITIONAL_COMMANDS.INSERT, "MARIADB_ALLOW_INSERT"%string);
   (CONDITIONAL_COMMANDS.UPDATE, "MARIADB_ALLOW_UPDATE"%string);
   (CONDITIONAL_COMMANDS.DELETE, "MARIADB_ALLOW_DELETE"%string)].


(** One step into a composite value: an array index or a property key. *)
Inductive Step : Type :=
| AtIndex (i : nat)
| AtKey (key : jsstring).

(** The value of property [key] among the entries of an object. *)
Fixpoint property (key : jsstring) (props : list (jsstring * JsValue))
    : option JsValue :=
  match props with
  | [] => None
  | (k, v) :: rest => if decide (k = key) then Some v else property key rest
  end.

(** The value found by following [path] from [v], if the path exists. *)
Fixpoint valueAt (path : list Step) (v : JsValue) : option JsValue :=
  match path with
  | [] => Some v
  | AtIndex i :: path' =>
      match v with
      | JArray items =>
          match items !! i with
          | Some item => valueAt path' item
          | None => None
          end
      | _ => None
      end
  | AtKey key :: path' =>
      match v with
      | JObject props =>
          match property key props with
          | Some item => valueAt path' item
          | None => None
          end
      | _ => None
      end
  end.


(** The commands that can lead an allowed query. *)
Definition commandWords : list jsstring :=
  BASE_ALLOWED_COMMANDS
    ++ [CONDITIONAL_COMMANDS.INSERT; CONDITIONAL_COMMANDS.UPDATE;
        CONDITIONAL_COMMANDS.DELETE].

(** [noDisallowedWord], by the scan. *)
Definition noDisallowedWordb (text : jsstring) : bool :=
  forallb (fun cmd => negb (occursStandalone cmd None text)) DISALLOWED_COMMANDS.

(** The number of times [s] was released in a run of driver calls. *)
Fixpoint releasesOf (s : nat) (events : list Event) : nat :=
  match events with
  | [] => 0
  | Released s' :: rest => (if Nat.eqb s' s then 1 else 0) + releasesOf s rest
  | _ :: rest => releasesOf s rest
  end.

(** The statement [executeQuery] sends for the query itself. *)
Definition mainStatement (sql : jsstring) (params : list JsValue) : Statement :=
  WithOptions true false sql (indexedEntries id params).

(** The database switch on session [s], sent when [database] is given and
    not empty. *)
Definition useCalls (s : nat) (database : option jsstring) : list Event :=
  match database with
  | Some ((_ :: _) as database) => [Sent s (useStatement database)]
  | _ => []
  end.

(** The paths through one call of [executeQuery] that starts with an empty
    connection slot: how the call completes and which driver calls it
    makes, given the driver calls [before] it, and whether the query is
    [allowed]. *)
Inductive Path (srv : Server) (allowed : bool) (sql : jsstring)
    (params : list JsValue) (database : option jsstring) (before : list Event)
    : Completion (JsValue * list FieldInfo) -> list Event -> Prop :=
| NoSession (e : Exception) :
    e <> Error "Query not allowed" ->
    Path srv allowed sql params database before (Throw e) []
| UseFailed (s : nat) (errno : Z) (name : jsstring) :
    database = Some name -> name <> [] ->
    answers srv (before ++ [Acquired s]) s (useStatement name) = inl errno ->
    Path srv allowed sql params database before (Throw (SqlError errno))
      [Acquired s; Sent s (useStatement name); Released s]
| Refused (s : nat) :
    allowed = false ->
    Path srv allowed sql params database before
      (Throw (Error "Query not allowed"))
      (Acquired s :: useCalls s database ++ [Released s])
| QueryFailed (s : nat) (errno : Z) :
    allowed = true ->
    answers srv (before ++ Acquired s :: useCalls s database) s
      (mainStatement sql params) = inl errno ->
    Path srv allowed sql params database before (Throw (SqlError errno))
      (Acquired s :: useCalls s database
         ++ [Sent s (mainStatement sql params); Released s])
| Succeeded (s : nat) (rows : JsValue) (fields : list FieldInfo) :
    allowed = true ->
    answers srv (before ++ Acquired s :: useCalls s database) s
      (mainStatement sql params) = inr (rows, fields) ->
    Path srv allowed sql params database before
      (Return (convertBigIntToString (limitRows rows), fields))
      (Acquired s :: useCalls s database
         ++ [Sent s (mainStatement sql params); Released s]).

(** One call: the environment at the time of the call and the arguments. *)
Record Call : Type := {
  callEnv : gmap string (list N);
  callSql : jsstring;
  callParams : list JsValue;
  callDatabase : option jsstring;
}.

(** The module state after a sequence of calls, one after the other. *)
Fixpoint runCalls (toUpperCase : jsstring -> jsstring) (srv : Server)
    (cs : list Call) (st : ModuleState) : ModuleState :=
  match cs with
  | [] => st
  | c :: cs' =>
      runCalls toUpperCase srv cs'
        (executeQuery toUpperCase srv (callEnv c) (callSql c) (callParams c)
           (callDatabase c) st).2
  end.

End Spec.

Import Spec.

(** ** validators.ts: compatibility scan and [validateQuery] *)

Module Compatibility.

(** What the feature patterns are made of: a character, an escaped
    character, [.*] and [\s*]. *)
Inductive Atom : Type :=
| Lit (c : N)
| Escaped (c : N)
| AnyRun
| SpaceRun.

(** The characters of a plain word, as a pattern. *)
Definition word (s : string) : list Atom := Lit <$> js s.

(** The text of a pattern, as it stands in the source string. *)
Definition atomSource (a : Atom) : jsstring :=
  match a with
  | Lit c => [c]
  | Escaped c => [92; c]
  | AnyRun => js ".*"
  | SpaceRun => js "\s*"
  end.

Definition source (feature : list Atom) : jsstring :=
  concat (atomSource <$> feature).

(** A word followed by [\s*\(]. *)
Definition call (s : string) : list Atom := word s ++ [SpaceRun; Escaped 40].

(** [MARIADB_10_0_UNSUPPORTED_FEATURES] *)
Definition MARIADB_10_0_UNSUPPORTED_FEATURES : list (list Atom) :=
  [word "JSON_EXTRACT"; word "JSON_UNQUOTE"; word "JSON_OBJECT";
   word "JSON_ARRAY"; word "JSON_VALID"; word "JSON_TYPE";
   word "JSON_COMPACT"; word "JSON_LOOSE"; word "JSON_DETAILED";
   word "MATCH" ++ [AnyRun] ++ word "AGAINST" ++ [AnyRun]
     ++ word "IN NATURAL LANGUAGE MODE WITH QUERY EXPANSION";
   word "WINDOW FUNCTION";
   call "OVER"; call "ROW_NUMBER"; call "RANK"; call "DENSE_RANK";
   word "PARTITION BY"].

(** A pattern character against a text character under the [i] flag: the
    two are equal once ASCII letters are put in upper case; a character
    outside ASCII never matches an ASCII one. *)
Definition sameIgnoringCase (p c : N) : bool := asciiUpper p =? asciiUpper c.

(** Whether the pattern matches a prefix of the text.  [.] takes any code
    unit but a line terminator. *)
Fixpoint matchesHere (p : list Atom) : jsstring -> bool :=
  match p with
  | [] => fun _ => true
  | Lit c :: p' | Escaped c :: p' =>
      fun s =>
        match s with
        | d :: r => sameIgnoringCase c d && matchesHere p' r
        | [] => false
        end
  | AnyRun :: p' =>
      fix run (s : jsstring) : bool :=
        matchesHere p' s
        || match s with
           | d :: r => negb (isLineTerminator d) && run r
           | [] => false
           end
  | SpaceRun :: p' =>
      fix run (s : jsstring) : bool :=
        matchesHere p' s
        || match s with
           | d :: r => isWhiteSpace d && run r
           | [] => false
           end
  end.

(** [new RegExp(feature, 'i').test(text)]: a match somewhere in the text. *)
Fixpoint test (p : list Atom) (text : jsstring) : bool :=
  matchesHere p text
  || match text with
     | [] => false
     | _ :: r => test p r
     end.

(** The message for a feature. *)
Definition warning (feature : list Atom) : jsstring :=
  js "Warning: The query contains '" ++ source feature
    ++ js "' which may not be supported in MariaDB 10.0.38. Consider using alternative syntax.".

Section WithCaseMapping.

Variable toUpperCase : jsstring -> jsstring.

(** [checkMariaDB10_0_Compatibility]: the message for the first feature of
    the table found in the upper-cased query, [None] for [null]. *)
Definition checkMariaDB10_0_Compatibility (query : jsstring)
    : option jsstring :=
  let normalizedQuery := toUpperCase query in
  warning <$>
    find (fun feature => test feature normalizedQuery)
      MARIADB_10_0_UNSUPPORTED_FEATURES.

(** [validateQuery], on a query that is a string: it returns or throws. *)
Definition validateQuery (env : gmap string (list N)) (query : jsstring)
    : Exception + unit :=
  match query with
  | [] => inl (Error "Query must be a non-empty string")
  | _ :: _ =>
      if isAlloowedQuery toUpperCase env query then inr ()
      else inl (Error "Query contains disallowed commands or is not permitted by current configuration")
  end.

End WithCaseMapping.

End Compatibility.

Import Compatibility.

(** ** Further vocabulary *)

Module Observations.

(** The environment variables the code reads. *)
Definition readVariables : list string :=
  ["MARIADB_HOST"; "MARIADB_PORT"; "MARIADB_USER"; "MARIADB_PASSWORD";
   "MARIADB_DATABASE"; "MARIADB_ALLOW_INSERT"; "MARIADB_ALLOW_UPDATE";
   "MARIADB_ALLOW_DELETE"]%string.

(** Every write flag enabled in [env] is enabled in [env']. *)
Definition flagsBelow (env env' : gmap string (list N)) : Prop :=
  forall cmd flag,
    In (cmd, flag) conditionalCommands ->
    envFlag env flag = true -> envFlag env' flag = true.

(** White space occurs in the text only as single U+0020 characters
    between other characters. *)
Definition singleSpaced (text : jsstring) : Prop :=
  (forall c, In c text -> isWhiteSpace c = true -> c = Char.space)
  /\ includes [Char.space; Char.space] text = false
  /\ head text <> Some Char.space
  /\ last text <> Some Char.space.

(** A value made of null, undefined, booleans, numbers, texts, arrays and
    plain objects only. *)
Fixpoint jsonLike (v : JsValue) : bool :=
  match v with
  | JBigInt _ | JDate _ | JBuffer _ => false
  | JArray items => forallb jsonLike items
  | JObject props => forallb (fun '(_, value) => jsonLike value) props
  | JNull | JUndefined | JBoolean _ | JNumber _ | JString _ => true
  end.


(** The sessions acquired in a run of driver calls. *)
Fixpoint acquiredIn (events : list Event) : list nat :=
  match events with
  | [] => []
  | Acquired s :: rest => s :: acquiredIn rest
  | _ :: rest => acquiredIn rest
  end.

(** The statements sent in a run of driver calls, with their sessions. *)
Fixpoint sentIn (events : list Event) : list (nat * Statement) :=
  match events with
  | [] => []
  | Sent s statement :: rest => (s, statement) :: sentIn rest
  | _ :: rest => sentIn rest
  end.

End Observations.

Import Observations.

(** ** Environments and servers of the examples *)

(** The environment with the three write flags enabled. *)
Definition allWritesEnabled : gmap string (list N) :=
  <["MARIADB_ALLOW_INSERT"%string := js "true"]>
    (<["MARIADB_ALLOW_UPDATE"%string := js "true"]>
       (<["MARIADB_ALLOW_DELETE"%string := js "true"]> ∅)).

(** A complete environment whose port is not a number. *)
Definition wordPortEnv : gmap string (list N) :=
  <["MARIADB_HOST"%string := js "localhost"]>
    (<["MARIADB_USER"%string := js "reader"]>
       (<["MARIADB_PASSWORD"%string := js "secret"]>
          (<["MARIADB_PORT"%string := js "abc"]> ∅))).

(** An environment with the three required variables. *)
Definition readerEnv : gmap string (list N) :=
  <["MARIADB_HOST"%string := js "localhost"]>
    (<["MARIADB_USER"%string := js "reader"]>
       (<["MARIADB_PASSWORD"%string := js "secret"]> ∅)).


(** A server that accepts every session and answers every statement with
    [n] copies of one row. *)
Definition rowsServer (n : nat) : Server :=
  {| refuses := fun _ => None;
     answers := fun _ _ _ =>
       inr (JArray (replicate n (JObject [(js "id", JBigInt 7)])),
            [{| fieldName := js "id"; columnType := 8 |}]) |}.


(** * Properties *)

(** ** Strings *)

(** Splits boolean tests on code units found in the hypotheses into the
    arithmetic facts they stand for. *)
Ltac split_tests :=
  repeat match goal with
    | H : (_ || _) = true |- _ => apply orb_true_iff in H; destruct H
    | H : (_ && _) = true |- _ => apply andb_true_iff in H; destruct H
    | H : (_ || _) = false |- _ => apply orb_false_iff in H; destruct H
    | H : (_ && _) = false |- _ => apply andb_false_iff in H; destruct H
    | H : (_ =? _) = true |- _ => apply N.eqb_eq in H
    | H : (_ =? _) = false |- _ => apply N.eqb_neq in H
    | H : (_ <=? _) = true |- _ => apply N.leb_le in H
    | H : (_ <=? _) = false |- _ => apply N.leb_gt in H
    end.

Lemma startsWith_spec (p s : jsstring) :
  startsWith p s = true <-> exists r, s = p ++ r.
Proof.
  revert s. induction p as [|a p IH]; intros s; simpl.
  - split; eauto.
  - destruct s as [|b s].
    + split; [discriminate | intros [r Hr]; discriminate].
    + rewrite andb_true_iff, N.eqb_eq, IH. split.
      * intros [-> [r ->]]. eauto.
      * intros [r Hr]. injection Hr as -> ->. eauto.
Qed.

Lemma startsWith_app (p r : jsstring) : startsWith p (p ++ r) = true.
Proof. apply startsWith_spec. eauto. Qed.

Lemma includes_char_spec (c : N) (s : jsstring) :
  includes [c] s = true <-> In c s.
Proof.
  induction s as [|b s IH]; simpl.
  - split; [discriminate | tauto].
  - rewrite orb_true_iff, IH, andb_true_iff, N.eqb_eq. split.
    + intros [[-> _] | H]; auto.
    + intros [-> | H]; auto.
Qed.

Lemma endsWith_char_spec (c : N) (s : jsstring) :
  endsWith [c] s = true <-> exists body, s = body ++ [c].
Proof.
  unfold endsWith. rewrite startsWith_spec. split.
  - intros [r Hr]. exists (reverse r).
    rewrite <- (reverse_involutive s), Hr.
    change (reverse [c]) with [c]. rewrite reverse_app. reflexivity.
  - intros [body ->]. exists (reverse body).
    rewrite reverse_app. reflexivity.
Qed.

Lemma whiteSpace_not_word (c : N) :
  isWhiteSpace c = true -> isWordChar c = false.
Proof.
  intros Hws. destruct (isWordChar c) eqn:Hw; [|reflexivity].
  unfold isWhiteSpace, isWordChar, Char.underscore in *.
  split_tests; lia.
Qed.

(** ** Normalisation on some texts *)

Example normalizeQuery_line_comment :
  normalizeQuery toUpperCaseAscii
    (js "select 1 -- drop it" ++ [Char.lf] ++ js "  from t -- x")
  = js "SELECT 1 FROM T".
Proof. vm_compute. reflexivity. Qed.

Example normalizeQuery_block_comment :
  normalizeQuery toUpperCaseAscii (js "select /* a * b */ 1 /**/ from /* t") 
  = js "SELECT 1 FROM /* T"
  /\ normalizeQuery toUpperCaseAscii (js "select /*/ 1") = js "SELECT /*/ 1"
  /\ normalizeQuery toUpperCaseAscii (js "select /* /* */ 1 */")
     = js "SELECT 1 */".
Proof. vm_compute. repeat split. Qed.

Example normalizeQuery_white_space :
  normalizeQuery toUpperCaseAscii
    ([Char.tab; Char.lf] ++ js "show" ++ [Char.cr; Char.lf; 0xA0]
       ++ js "tables" ++ [Char.space; 0x3000])
  = js "SHOW TABLES".
Proof. vm_compute. reflexivity. Qed.

Example testCommand_examples :
  testCommand (js "DROP") (js "DROP") = true
  /\ testCommand (js "DROP") (js "SELECT 1; DROP TABLE T") = true
  /\ testCommand (js "DROP") (js "SELECT 1;DROP TABLE T") = false
  /\ testCommand (js "DROP") (js "SELECT BACKDROP FROM T") = false
  /\ testCommand (js "DROP") (js "SELECT 'DROP'") = false
  /\ testCommand (js "EXEC") (js "EXECUTE X") = false
  /\ testCommand (js "EXECUTE") (js "EXECUTE X") = true.
Proof. vm_compute. repeat split. Qed.

(** ** Admission: what the checks of [isAlloowedQuery] detect *)

Lemma commandAt_spec (cmd s : jsstring) :
  commandAt cmd s = true ->
  exists post,
    s = cmd ++ post /\ (forall c, head post = Some c -> isWhiteSpace c = true).
Proof.
  unfold commandAt. intros H. apply andb_true_iff in H as [Hp Hb].
  apply startsWith_spec in Hp as [post ->]. exists post. split; [reflexivity|].
  rewrite drop_app_length in Hb.
  destruct post as [|d post]; simpl; intros c [= <-]. exact Hb.
Qed.

Lemma commandAfterSpace_spec (cmd s : jsstring) :
  commandAfterSpace cmd s = true ->
  exists pre c post,
    s = pre ++ c :: cmd ++ post
    /\ isWhiteSpace c = true
    /\ (forall d, head post = Some d -> isWhiteSpace d = true).
Proof.
  induction s as [|c r IH]; simpl; [discriminate|].
  intros H. apply orb_true_iff in H as [H | H].
  - apply andb_true_iff in H as [Hc H].
    apply commandAt_spec in H as (post & -> & Hpost).
    exists [], c, post. auto.
  - destruct (IH H) as (pre & c' & post & -> & Hc' & Hpost).
    exists (c :: pre), c', post. auto.
Qed.

(** A command the pattern of the source finds is a standalone word of the
    text. *)
Lemma whiteSpace_atBoundary (post : jsstring) :
  (forall c, head post = Some c -> isWhiteSpace c = true) ->
  atBoundary (head post) = true.
Proof.
  destruct post as [|c post]; simpl; [reflexivity|]. intros H.
  rewrite whiteSpace_not_word; auto.
Qed.

Lemma testCommand_standalone (cmd text : jsstring) :
  testCommand cmd text = true -> standaloneWord cmd text.
Proof.
  unfold testCommand. intros H. apply orb_true_iff in H as [H | H].
  - apply commandAt_spec in H as (post & -> & Hpost).
    exists [], post. repeat split. apply whiteSpace_atBoundary, Hpost.
  - apply commandAfterSpace_spec in H as (pre & c & post & -> & Hc & Hpost).
    exists (pre ++ [c]), post. rewrite <- app_assoc. repeat split.
    + rewrite last_snoc. simpl. rewrite whiteSpace_not_word; auto.
    + apply whiteSpace_atBoundary, Hpost.
Qed.

Lemma commandAt_app (cmd post : jsstring) :
  atSpace (head post) = true -> commandAt cmd (cmd ++ post) = true.
Proof.
  intros Hpost. unfold commandAt.
  rewrite startsWith_app, drop_app_length.
  destruct post; [reflexivity | exact Hpost].
Qed.

Lemma commandAfterSpace_app (cmd pre post : jsstring) (c : N) :
  isWhiteSpace c = true -> atSpace (head post) = true ->
  commandAfterSpace cmd (pre ++ c :: cmd ++ post) = true.
Proof.
  intros Hc Hpost. induction pre as [|d pre IH]; cbn [app commandAfterSpace].
  - rewrite Hc, commandAt_app by exact Hpost. reflexivity.
  - rewrite IH. apply orb_true_r.
Qed.

(** The pattern of the source finds exactly the commands delimited by
    white space or the ends of the text. *)
Lemma testCommand_delimited (cmd text : jsstring) :
  testCommand cmd text = true <-> delimitedWord cmd text.
Proof.
  unfold testCommand. rewrite orb_true_iff. split.
  - intros [H | H].
    + apply commandAt_spec in H as (post & -> & Hpost).
      exists [], post. repeat split.
      destruct post; [reflexivity | apply Hpost; reflexivity].
    + apply commandAfterSpace_spec in H as (pre & c & post & -> & Hc & Hpost).
      exists (pre ++ [c]), post. rewrite <- app_assoc. repeat split.
      * rewrite last_snoc. exact Hc.
      * destruct post; [reflexivity | apply Hpost; reflexivity].
  - intros (pre & post & -> & Hpre & Hpost).
    destruct (last pre) as [c|] eqn:Hlast.
    + apply last_Some in Hlast as [pre' ->]. right.
      rewrite <- (app_assoc pre' [c]).
      apply (commandAfterSpace_app cmd pre' post c); assumption.
    + apply last_None in Hlast as ->. left. rewrite app_nil_l.
      apply commandAt_app, Hpost.
Qed.

Lemma containsDisallowed_standalone (text : jsstring) :
  containsDisallowed text = true ->
  exists cmd, In cmd DISALLOWED_COMMANDS /\ standaloneWord cmd text.
Proof.
  unfold containsDisallowed. intros H.
  apply existsb_exists in H as (cmd & Hin & H).
  exists cmd. split; [exact Hin | apply testCommand_standalone; exact H].
Qed.

Lemma noDisallowedWord_containsDisallowed (text : jsstring) :
  noDisallowedWord text -> containsDisallowed text = false.
Proof.
  intros Hno. destruct (containsDisallowed text) eqn:H; [|reflexivity].
  apply containsDisallowed_standalone in H as (cmd & Hin & Hw).
  destruct (Hno cmd Hin Hw).
Qed.

(** What the multi-statement test of the source computes. *)
Lemma hasMultipleStatements_spec (text : jsstring) :
  hasMultipleStatements text = true <->
  In Char.semicolon text /\ ~ (exists body, text = body ++ [Char.semicolon]).
Proof.
  unfold hasMultipleStatements.
  rewrite andb_true_iff, negb_true_iff, includes_char_spec.
  rewrite <- not_true_iff_false, endsWith_char_spec. reflexivity.
Qed.

(** Whenever the source reports several statements, there are several. *)
Lemma hasMultipleStatements_sound (text : jsstring) :
  hasMultipleStatements text = true -> multiStatement text.
Proof.
  rewrite hasMultipleStatements_spec. intros [Hin Hend]. split; [exact Hin|].
  intros (body & Hbody & _). apply Hend. eauto.
Qed.

Lemma not_multiStatement_hasMultipleStatements (text : jsstring) :
  ~ multiStatement text -> hasMultipleStatements text = false.
Proof.
  intros Hno. destruct (hasMultipleStatements text) eqn:H; [|reflexivity].
  destruct (Hno (hasMultipleStatements_sound _ H)).
Qed.

(** ** Admission: the leading command *)

Lemma strictEquals_spec (a b : jsstring) : strictEquals a b = true <-> a = b.
Proof. unfold strictEquals. apply bool_decide_eq_true. Qed.

Lemma leadingToken_test (cmd text : jsstring) :
  ~ In Char.space cmd ->
  (startsWith (cmd ++ [Char.space]) text || strictEquals text cmd) = true
  <-> leadingToken text = cmd.
Proof.
  revert text. induction cmd as [|a cmd IH]; intros text Hsp;
    rewrite orb_true_iff, strictEquals_spec.
  - destruct text as [|c r]; cbn [startsWith leadingToken app].
    + tauto.
    + rewrite andb_true_r, N.eqb_eq, (N.eqb_sym c).
      destruct (N.eqb_spec Char.space c) as [<-|Hc].
      * tauto.
      * split; [intros [H | H]; congruence | discriminate].
  - assert (Ha : a <> Char.space) by (intros ->; apply Hsp; left; reflexivity).
    assert (Hsp' : ~ In Char.space cmd) by (intros H; apply Hsp; right; exact H).
    destruct text as [|c r]; cbn [startsWith leadingToken app].
    + split; [intros [H | H]; discriminate | discriminate].
    + specialize (IH r Hsp'). rewrite orb_true_iff, strictEquals_spec in IH.
      rewrite andb_true_iff, N.eqb_eq.
      destruct (N.eqb_spec c Char.space) as [->|Hc].
      * split; [|discriminate]. intros [[-> _] | [= <- _]]; congruence.
      * split.
        -- intros [[-> H] | [= -> ->]]; f_equal; apply IH; auto.
        -- intros [= -> H]. apply IH in H as [H | ->]; auto.
Qed.

Lemma commandWords_no_space (cmd : jsstring) :
  In cmd commandWords -> ~ In Char.space cmd.
Proof.
  intros Hin. apply list_elem_of_In in Hin.
  assert (H : Forall (fun w : jsstring => Char.space ∉ w) commandWords)
    by (apply (bool_decide_unpack _); vm_compute; exact I).
  rewrite Forall_forall in H. rewrite <- list_elem_of_In. apply H, Hin.
Qed.

Lemma allowedCommands_words (env : gmap string (list N)) (cmd : jsstring) :
  In cmd (allowedCommands env) -> In cmd commandWords.
Proof.
  unfold allowedCommands, commandWords. rewrite !in_app_iff.
  destruct (envFlag env "MARIADB_ALLOW_INSERT"),
    (envFlag env "MARIADB_ALLOW_UPDATE"),
    (envFlag env "MARIADB_ALLOW_DELETE"); simpl; tauto.
Qed.

(** The leading-command test of the source compares the first token of
    the normalised text with the commands currently allowed. *)
Lemma startsWithAllowed_spec (env : gmap string (list N)) (text : jsstring) :
  startsWithAllowed env text = true <->
  In (leadingToken text) (allowedCommands env).
Proof.
  unfold startsWithAllowed. rewrite existsb_exists. split.
  - intros (cmd & Hin & H).
    apply leadingToken_test in H as ->; [exact Hin|].
    apply commandWords_no_space, (allowedCommands_words env), Hin.
  - intros Hin. exists (leadingToken text). split; [exact Hin|].
    apply leadingToken_test; [|reflexivity].
    apply commandWords_no_space, (allowedCommands_words env), Hin.
Qed.

Lemma allowedCommands_base (env : gmap string (list N)) (cmd : jsstring) :
  In cmd BASE_ALLOWED_COMMANDS -> In cmd (allowedCommands env).
Proof. unfold allowedCommands. rewrite in_app_iff. auto. Qed.

(** Settles membership of a concrete word in a concrete list of words by
    evaluation. *)
Ltac decide_member :=
  match goal with
  | |- In _ _ =>
      apply list_elem_of_In, (bool_decide_unpack _); vm_compute; exact I
  | H : In _ _ |- _ =>
      exfalso; apply list_elem_of_In in H; revert H;
      apply (bool_decide_unpack (¬ _)); vm_compute; exact I
  end.

Lemma allowedCommands_conditional (env : gmap string (list N))
    (cmd : jsstring) (flag : string) :
  In (cmd, flag) conditionalCommands ->
  (In cmd (allowedCommands env) <-> envFlag env flag = true).
Proof.
  unfold conditionalCommands, allowedCommands.
  intros [[= <- <-] | [[= <- <-] | [[= <- <-] | []]]];
    destruct (envFlag env "MARIADB_ALLOW_INSERT"),
      (envFlag env "MARIADB_ALLOW_UPDATE"),
      (envFlag env "MARIADB_ALLOW_DELETE");
    (split; intros H; [try reflexivity | try discriminate H]);
    decide_member.
Qed.

(** ** Deciding the vocabulary on a given text *)

Lemma occursStandalone_complete (word pre post : jsstring) (prev : option N) :
  atBoundary (last (option_list prev ++ pre)) = true ->
  atBoundary (head post) = true ->
  occursStandalone word prev (pre ++ word ++ post) = true.
Proof.
  revert prev. induction pre as [|c pre IH]; intros prev Hpre Hpost.
  - rewrite app_nil_r in Hpre. rewrite app_nil_l.
    assert (Hprev : atBoundary prev = true) by (destruct prev; exact Hpre).
    destruct (word ++ post) eqn:E; cbn [occursStandalone]; rewrite <- E;
      rewrite Hprev, startsWith_app, drop_app_length, Hpost; reflexivity.
  - cbn [app occursStandalone]. rewrite (IH (Some c)), orb_true_r; auto.
    destruct prev; cbn [option_list app] in *;
      rewrite ?last_cons_cons in Hpre; exact Hpre.
Qed.

Lemma standaloneWord_occurs (word text : jsstring) :
  standaloneWord word text -> occursStandalone word None text = true.
Proof.
  intros (pre & post & -> & Hpre & Hpost).
  apply occursStandalone_complete; auto.
Qed.

Lemma noDisallowedWordb_sound (text : jsstring) :
  noDisallowedWordb text = true -> noDisallowedWord text.
Proof.
  unfold noDisallowedWordb. rewrite forallb_forall. intros H cmd Hin Hw.
  specialize (H cmd Hin). rewrite (standaloneWord_occurs _ _ Hw) in H.
  discriminate H.
Qed.

Lemma no_separator_not_multiStatement (text : jsstring) :
  includes [Char.semicolon] text = false -> ~ multiStatement text.
Proof.
  intros H [Hin _]. apply includes_char_spec in Hin. congruence.
Qed.


(** ** Admission: the decision *)

Section Admission.

Variable toUpperCase : jsstring -> jsstring.

Lemma isAlloowedQuery_true (env : gmap string (list N)) (query : jsstring) :
  isAlloowedQuery toUpperCase env query = true <->
  In (leadingToken (normalizeQuery toUpperCase query)) (allowedCommands env)
  /\ containsDisallowed (normalizeQuery toUpperCase query) = false
  /\ hasMultipleStatements (normalizeQuery toUpperCase query) = false.
Proof.
  unfold isAlloowedQuery.
  rewrite !andb_true_iff, !negb_true_iff, startsWithAllowed_spec. tauto.
Qed.

(** Whatever the flags and the leading command, a query whose normalised
    text holds a disallowed command between white space (or the ends of
    the text) is denied. *)
Lemma delimited_command_denied (env : gmap string (list N))
    (query cmd : jsstring) :
  In cmd DISALLOWED_COMMANDS ->
  delimitedWord cmd (normalizeQuery toUpperCase query) ->
  isAlloowedQuery toUpperCase env query = false.
Proof.
  intros Hin Hword. apply testCommand_delimited in Hword.
  apply not_true_iff_false.
  rewrite isAlloowedQuery_true. intros (_ & Hdis & _).
  unfold containsDisallowed in Hdis.
  assert (H : existsb (fun c => testCommand c (normalizeQuery toUpperCase query))
                DISALLOWED_COMMANDS = true)
    by (apply existsb_exists; eauto).
  congruence.
Qed.

(** A query that leads with a read command gets the same answer under
    any two environments. *)
Lemma read_admission_ignores_env (env1 env2 : gmap string (list N))
    (query : jsstring) :
  In (leadingToken (normalizeQuery toUpperCase query)) BASE_ALLOWED_COMMANDS ->
  isAlloowedQuery toUpperCase env1 query = isAlloowedQuery toUpperCase env2 query.
Proof.
  intros Hlead. unfold isAlloowedQuery.
  rewrite (proj2 (startsWithAllowed_spec env1 _))
    by (apply allowedCommands_base, Hlead).
  rewrite (proj2 (startsWithAllowed_spec env2 _))
    by (apply allowedCommands_base, Hlead).
  reflexivity.
Qed.

Lemma read_query_allowed_by_tests (query : jsstring) :
  In (leadingToken (normalizeQuery toUpperCase query)) BASE_ALLOWED_COMMANDS ->
  containsDisallowed (normalizeQuery toUpperCase query) = false ->
  hasMultipleStatements (normalizeQuery toUpperCase query) = false ->
  forall env, isAlloowedQuery toUpperCase env query = true.
Proof.
  intros Hlead Hdis Hmulti env. apply isAlloowedQuery_true.
  split; [apply allowedCommands_base, Hlead | split; assumption].
Qed.

Lemma multiple_statements_denied (env : gmap string (list N))
    (query : jsstring) :
  hasMultipleStatements (normalizeQuery toUpperCase query) = true ->
  isAlloowedQuery toUpperCase env query = false.
Proof.
  intros H. unfold isAlloowedQuery. rewrite H, andb_false_r. reflexivity.
Qed.


(** C5, as the code has it: a query whose normalised leading token is
    INSERT, UPDATE or DELETE is allowed only if the flag of that command is
    enabled; and when it holds no disallowed command as a standalone word
    and no statement separator other than a single trailing one, it is
    allowed if and only if that flag is enabled. *)
Theorem conditional_write_admission (env : gmap string (list N))
    (query cmd : jsstring) (flag : string) :
  In (cmd, flag) conditionalCommands ->
  leadingToken (normalizeQuery toUpperCase query) = cmd ->
  (isAlloowedQuery toUpperCase env query = true -> envFlag env flag = true)
  /\ (noDisallowedWord (normalizeQuery toUpperCase query) ->
      ~ multiStatement (normalizeQuery toUpperCase query) ->
      (isAlloowedQuery toUpperCase env query = true
       <-> envFlag env flag = true)).
Proof.
  intros Hcmd Hlead.
  assert (Hflag : isAlloowedQuery toUpperCase env query = true ->
                  envFlag env flag = true).
  { rewrite isAlloowedQuery_true, Hlead. intros (Hin & _).
    apply (allowedCommands_conditional env cmd flag Hcmd), Hin. }
  split; [exact Hflag|]. intros Hdis Hmulti. split; [exact Hflag|].
  intros Hon. apply isAlloowedQuery_true. split; [|split].
  - rewrite Hlead. apply (allowedCommands_conditional env cmd flag Hcmd), Hon.
  - apply noDisallowedWord_containsDisallowed, Hdis.
  - apply not_multiStatement_hasMultipleStatements, Hmulti.
Qed.

End Admission.

(** *** Concrete queries *)


Lemma conditional_write_admission_witness :
  let query := js "INSERT INTO t VALUES (1)" in
  isAlloowedQuery toUpperCaseAscii allWritesEnabled query = true
  <-> envFlag allWritesEnabled "MARIADB_ALLOW_INSERT" = true.
Proof.
  apply (proj2 (conditional_write_admission toUpperCaseAscii allWritesEnabled
                  (js "INSERT INTO t VALUES (1)") CONDITIONAL_COMMANDS.INSERT
                  "MARIADB_ALLOW_INSERT" (or_introl eq_refl) eq_refl)).
  - apply noDisallowedWordb_sound. vm_compute. reflexivity.
  - apply no_separator_not_multiStatement. vm_compute. reflexivity.
Defined.

(** The example of the specification: the same INSERT is denied with the
    flag off and allowed with it on. *)
Example insert_follows_flag :
  isAlloowedQuery toUpperCaseAscii ∅ (js "INSERT INTO t VALUES (1)") = false
  /\ isAlloowedQuery toUpperCaseAscii
       (<["MARIADB_ALLOW_INSERT"%string := js "false"]> ∅)
       (js "INSERT INTO t VALUES (1)") = false
  /\ isAlloowedQuery toUpperCaseAscii
       (<["MARIADB_ALLOW_INSERT"%string := js "true"]> ∅)
       (js "INSERT INTO t VALUES (1)") = true.
Proof. vm_compute. auto. Qed.

(** C5 as stated fails: with the INSERT flag enabled, a query that leads
    with INSERT is still denied when a disallowed command follows. *)
Lemma insert_with_drop_denied :
  let env := <["MARIADB_ALLOW_INSERT"%string := js "true"]> ∅ in
  let query := js "INSERT INTO t VALUES (1); DROP TABLE t" in
  leadingToken (normalizeQuery toUpperCaseAscii query)
  = CONDITIONAL_COMMANDS.INSERT
  /\ envFlag env "MARIADB_ALLOW_INSERT" = true
  /\ isAlloowedQuery toUpperCaseAscii env query = false
  /\ ~ (isAlloowedQuery toUpperCaseAscii env query = true
        <-> envFlag env "MARIADB_ALLOW_INSERT" = true).
Proof.
  vm_compute. repeat split; try reflexivity. intros [_ H].
  specialize (H eq_refl). discriminate H.
Qed.

(** C1, at a query the code lets through: [DROP] stands as a word of its
    own right after the separator, the text leads with SELECT and ends
    with a separator, and the query is allowed under every environment,
    the one with all write flags enabled included. *)
Theorem drop_after_separator_allowed :
  let query := js "SELECT 1;DROP TABLE t;" in
  In (js "DROP") DISALLOWED_COMMANDS
  /\ standaloneWord (js "DROP") (normalizeQuery toUpperCaseAscii query)
  /\ (forall env, isAlloowedQuery toUpperCaseAscii env query = true)
  /\ isAlloowedQuery toUpperCaseAscii allWritesEnabled query = true.
Proof.
  assert (Hall : forall env,
             isAlloowedQuery toUpperCaseAscii env (js "SELECT 1;DROP TABLE t;")
             = true).
  { apply read_query_allowed_by_tests; [decide_member | | ];
      vm_compute; reflexivity. }
  cbv zeta. split; [decide_member|]. split; [|split; [exact Hall | apply Hall]].
  exists (js "SELECT 1;"), (js " TABLE T;"). repeat split.
Qed.

(** The example of the specification is denied, under every environment:
    there [DROP] follows a space. *)
Example select_then_drop_denied (env : gmap string (list N)) :
  isAlloowedQuery toUpperCaseAscii env (js "SELECT 1; DROP TABLE t") = false.
Proof.
  apply (delimited_command_denied _ _ _ (js "DROP")); [decide_member|].
  exists (js "SELECT 1; "), (js " TABLE T"). repeat split.
Qed.

(** C2, at a query the code lets through: two statements, each closed by
    a separator.  The text holds a separator that is not a sole trailing
    one, yet the multi-statement test of the source answers no and the
    query is allowed under every environment. *)
Theorem two_closed_statements_allowed :
  let query := js "SELECT 1; SELECT 2;" in
  multiStatement (normalizeQuery toUpperCaseAscii query)
  /\ hasMultipleStatements (normalizeQuery toUpperCaseAscii query) = false
  /\ (forall env, isAlloowedQuery toUpperCaseAscii env query = true).
Proof.
  cbv zeta. split; [|split].
  - split.
    + apply includes_char_spec. vm_compute. reflexivity.
    + intros (body & Hbody & Hno).
      change (normalizeQuery toUpperCaseAscii (js "SELECT 1; SELECT 2;"))
        with (js "SELECT 1; SELECT 2" ++ [Char.semicolon]) in Hbody.
      apply app_inj_tail in Hbody as [<- _].
      apply Hno. rewrite <- includes_char_spec. vm_compute. reflexivity.
  - vm_compute. reflexivity.
  - apply read_query_allowed_by_tests; [decide_member | | ];
      vm_compute; reflexivity.
Qed.

(** The two examples of the specification behave as it says. *)
Example two_statements_denied (env : gmap string (list N)) :
  hasMultipleStatements
    (normalizeQuery toUpperCaseAscii (js "SELECT 1; SELECT 2")) = true
  /\ isAlloowedQuery toUpperCaseAscii env (js "SELECT 1; SELECT 2") = false.
Proof.
  split; [vm_compute; reflexivity|].
  apply multiple_statements_denied. vm_compute. reflexivity.
Qed.

Example single_trailing_separator_allowed (env : gmap string (list N)) :
  hasMultipleStatements (normalizeQuery toUpperCaseAscii (js "SELECT 1;"))
  = false
  /\ isAlloowedQuery toUpperCaseAscii env (js "SELECT 1;") = true.
Proof.
  split; [vm_compute; reflexivity|].
  apply read_query_allowed_by_tests; [decide_member | | ];
    vm_compute; reflexivity.
Qed.

(** ** Result normalisation *)












(** A row with a wide integer nested in an object inside an array. *)
Example convert_nested_row :
  let big := 9007199254740993%Z in
  let row :=
    JObject [(js "id", JBigInt big);
             (js "name", JString (js "a"));
             (js "tags", JArray [JNull; JObject [(js "n", JBigInt (- big))]]);
             (js "ok", JBoolean true)] in
  convertBigIntToString (JArray [row])
  = JArray
      [JObject [(js "id", JString (js "9007199254740993"));
                (js "name", JString (js "a"));
                (js "tags",
                 JArray [JNull;
                         JObject [(js "n", JString (js "-9007199254740993"))]]);
                (js "ok", JBoolean true)]]
  /\ valueAt [AtIndex 0; AtKey (js "tags"); AtIndex 1; AtKey (js "n")]
       (convertBigIntToString (JArray [row]))
     = Some (JString (js "-9007199254740993")).
Proof. vm_compute. split; reflexivity. Qed.

(** ** Configuration *)

Lemma parseInt10_not_a_number (text r : jsstring) (c : N) :
  trimStart text = c :: r ->
  isDigit c = false -> c <> Char.plus -> c <> Char.minus ->
  parseInt10 text = NaN.
Proof.
  intros Htrim Hdigit Hplus Hminus. unfold parseInt10. rewrite Htrim.
  rewrite (proj2 (N.eqb_neq c Char.plus)), (proj2 (N.eqb_neq c Char.minus))
    by assumption.
  cbn [orb digitPrefix]. rewrite Hdigit. reflexivity.
Qed.

(** C10, as the code has it: [getConfigFromEnv] throws exactly when one of
    MARIADB_HOST, MARIADB_USER, MARIADB_PASSWORD is absent or empty.
    Otherwise it returns a configuration whose port is 3306 when
    MARIADB_PORT is absent or empty and [parseInt] of its text when not,
    so NaN for a text that, after leading white space, starts with neither
    a digit nor a sign. *)
Theorem getConfigFromEnv_total (env : gmap string (list N)) :
  ((exists e, getConfigFromEnv env = inl e) <->
   truthy (env !! "MARIADB_HOST"%string) = false
   \/ truthy (env !! "MARIADB_USER"%string) = false
   \/ truthy (env !! "MARIADB_PASSWORD"%string) = false)
  /\ (truthy (env !! "MARIADB_HOST"%string) = true ->
      truthy (env !! "MARIADB_USER"%string) = true ->
      truthy (env !! "MARIADB_PASSWORD"%string) = true ->
      exists config,
        getConfigFromEnv env = inr config
        /\ port config
           = match env !! "MARIADB_PORT"%string with
             | Some ((_ :: _) as text) => parseInt10 text
             | _ => Finite false 3306 0
             end
        /\ forall text c r,
             env !! "MARIADB_PORT"%string = Some text ->
             trimStart text = c :: r ->
             isDigit c = false -> c <> Char.plus -> c <> Char.minus ->
             port config = NaN).
Proof.
  unfold getConfigFromEnv.
  destruct (env !! "MARIADB_HOST"%string) as [[|h0 h]|];
    destruct (env !! "MARIADB_USER"%string) as [[|u0 u]|];
    destruct (env !! "MARIADB_PASSWORD"%string) as [[|p0 p]|];
    cbn [truthy];
    (split;
     [split;
      [intros [e He]; first [discriminate He | auto]
      | intros [H | [H | H]]; first [discriminate H | eauto]]
     | intros Hh Hu Hp; try discriminate]).
  eexists. split; [reflexivity|]. cbn [port]. split; [reflexivity|].
  intros text c r -> Htrim Hdigit Hplus Hminus.
  destruct text as [|t0 text]; [discriminate Htrim|].
  apply (parseInt10_not_a_number _ r c); assumption.
Qed.

Example getConfigFromEnv_example :
  getConfigFromEnv
    (<["MARIADB_PORT"%string := js "3307"]>
       (<["MARIADB_ALLOW_UPDATE"%string := js "true"]>
          (<["MARIADB_ALLOW_DELETE"%string := js "TRUE"]> readerEnv)))
  = inr {| host := js "localhost"; port := Finite false 3307 0;
           user := js "reader"; password := js "secret"; database := None;
           allow_insert := false; allow_update := true;
           allow_delete := false |}.
Proof. vm_compute. reflexivity. Qed.

Lemma getConfigFromEnv_total_witness :
  exists config,
    getConfigFromEnv wordPortEnv = inr config /\ port config = NaN.
Proof.
  destruct (proj2 (getConfigFromEnv_total wordPortEnv) eq_refl eq_refl eq_refl)
    as (config & Hconfig & _ & Hnan).
  exists config. split; [exact Hconfig|].
  apply (Hnan (js "abc") 97 (js "bc")); [reflexivity | reflexivity | reflexivity | | ];
    discriminate.
Defined.

(** How [parseInt] reads some port texts. *)
Example parseInt10_examples :
  parseInt10 (js "3307") = Finite false 3307 0
  /\ parseInt10 (js " 42") = Finite false 42 0
  /\ parseInt10 (js "12abc") = Finite false 12 0
  /\ parseInt10 (js "-5") = Finite true 5 0
  /\ parseInt10 (js "0x10") = Finite false 0 0
  /\ parseInt10 (js "abc") = NaN
  /\ parseInt10 (js "+") = NaN.
Proof. vm_compute. repeat split. Qed.

(** C10 as stated fails: MARIADB_HOST is present, with an empty value, and
    [getConfigFromEnv] throws. *)
Lemma empty_host_rejected :
  let env :=
    <["MARIADB_HOST"%string := js ""]>
      (<["MARIADB_USER"%string := js "reader"]>
         (<["MARIADB_PASSWORD"%string := js "secret"]> ∅)) in
  is_Some (env !! "MARIADB_HOST"%string)
  /\ is_Some (env !! "MARIADB_USER"%string)
  /\ is_Some (env !! "MARIADB_PASSWORD"%string)
  /\ getConfigFromEnv env
     = inl (Error "MARIADB_HOST environment variable is required").
Proof. vm_compute. repeat split; eauto. Qed.

(** ** Execution *)

Lemma getConfigFromEnv_error (env : gmap string (list N)) (e : Exception) :
  getConfigFromEnv env = inl e -> e <> Error "Query not allowed".
Proof.
  unfold getConfigFromEnv. repeat case_match; intros [= <-]; discriminate.
Qed.

Lemma released_not_active (s : nat) (l : list nat) :
  ~ In s (filter (fun s' => s' ≠ s) l).
Proof.
  rewrite <- list_elem_of_In, list_elem_of_filter. tauto.
Qed.

Lemma released_idle (s : nat) (l : list nat) : In s (l ++ [s]).
Proof. apply in_app_iff. right. left. reflexivity. Qed.

Section Execution.

Variable toUpperCase : jsstring -> jsstring.

#[local] Arguments isAlloowedQuery : simpl never.
#[local] Arguments getConfigFromEnv : simpl never.
#[local] Arguments convertBigIntToString : simpl never.
#[local] Arguments limitRows : simpl never.
#[local] Arguments useStatement : simpl never.
#[local] Arguments indexedEntries : simpl never.

(** Unfolds the control flow of a call and splits it into its paths. *)
Ltac run_paths :=
  unfold executeQuery, tryFinally, tryCatch, createConnectionPool,
    poolGetConnection, releaseHeldConnection, release, query,
    readPool, writePool, readConnection, writeConnection, record, history,
    throw, mbind, mret, M_bind, M_ret in *;
  simpl in *;
  repeat (case_match; simpl in *; simplify_eq);
  simpl in *; try congruence.

(** Closes one path: names the driver calls it made and the constructor of
    [Path] it follows. *)
Ltac close_path :=
  rewrite <- ?app_assoc in *; simpl in *;
  split; [first [reflexivity | assumption]|];
  eexists; split; [first [reflexivity | symmetry; apply app_nil_r]|];
  split;
  [ first
      [ apply NoSession;
        first [discriminate | eapply getConfigFromEnv_error; eassumption]
      | eapply UseFailed; [reflexivity | discriminate | eassumption]
      | eapply Refused; reflexivity
      | eapply QueryFailed; [reflexivity | eassumption]
      | eapply Succeeded; [reflexivity | eassumption] ]
  | simpl; intros s' Hs';
    first
      [ contradiction
      | eexists; split; [reflexivity|]; simpl;
        repeat (destruct Hs' as [Hs' | Hs']; try discriminate Hs');
        try contradiction;
        injection Hs' as <-;
        split; [first [left; reflexivity | apply released_idle]
               | first [apply released_not_active | tauto]] ] ].

(** Every call of [executeQuery] that starts with an empty slot follows one
    of the paths, ends with an empty slot, and leaves each session it
    acquired in the idle queue of the pool. *)
Lemma executeQuery_path (srv : Server) (env : gmap string (list N))
    (sql : jsstring) (params : list JsValue) (database : option jsstring)
    (st st' : ModuleState) (completion : Completion (JsValue * list FieldInfo)) :
  connection st = None ->
  executeQuery toUpperCase srv env sql params database st = (completion, st') ->
  connection st' = None
  /\ exists delta,
       calls st' = calls st ++ delta
       /\ Path srv (isAlloowedQuery toUpperCase env sql) sql params database
            (calls st) completion delta
       /\ forall s, In (Acquired s) delta ->
            exists p', pool st' = Some p'
                       /\ In s (idle p') /\ ~ In s (active p').
Proof.
  intros Hslot Hrun. run_paths.
  all: solve [close_path].
Qed.

Lemma useCalls_acquired (s s' : nat) (database : option jsstring) :
  ~ In (Acquired s') (useCalls s database).
Proof. destruct database as [[|c d]|]; simpl; intros H; intuition discriminate. Qed.

Lemma useCalls_releases (s s' : nat) (database : option jsstring)
    (rest : list Event) :
  releasesOf s' (useCalls s database ++ rest) = releasesOf s' rest.
Proof. destruct database as [[|c d]|]; reflexivity. Qed.

Lemma Path_acquired (srv : Server) (allowed : bool) (sql : jsstring)
    (params : list JsValue) (database : option jsstring) (before : list Event)
    (completion : Completion (JsValue * list FieldInfo)) (delta : list Event) :
  Path srv allowed sql params database before completion delta ->
  delta = []
  \/ exists s body,
       delta = Acquired s :: body ++ [Released s]
       /\ (forall s', ~ In (Acquired s') body)
       /\ (forall s', releasesOf s' body = 0%nat).
Proof.
  intros [e He | s errno name Hdb Hname Hans | s Hno | s errno Hyes Hans
         | s rows fields Hyes Hans]; [left; reflexivity | right ..].
  - exists s, [Sent s (useStatement name)]. repeat split.
    intros s' [H | []]. discriminate H.
  - exists s, (useCalls s database). repeat split.
    + intros s'. apply useCalls_acquired.
    + intros s'. rewrite <- (app_nil_r (useCalls s database)).
      apply useCalls_releases.
  - exists s, (useCalls s database ++ [Sent s (mainStatement sql params)]).
    rewrite <- app_assoc. repeat split.
    + intros s' H. apply in_app_iff in H as [H | [H | []]];
        [exact (useCalls_acquired _ _ _ H) | discriminate H].
    + intros s'. apply useCalls_releases.
  - exists s, (useCalls s database ++ [Sent s (mainStatement sql params)]).
    rewrite <- app_assoc. repeat split.
    + intros s' H. apply in_app_iff in H as [H | [H | []]];
        [exact (useCalls_acquired _ _ _ H) | discriminate H].
    + intros s'. apply useCalls_releases.
Qed.

Lemma releasesOf_app (s : nat) (l1 l2 : list Event) :
  releasesOf s (l1 ++ l2) = (releasesOf s l1 + releasesOf s l2)%nat.
Proof.
  induction l1 as [|[s'|s' stmt|s'] l1 IH]; simpl; rewrite ?IH; lia.
Qed.

(** The slot is empty after a call, and what the call acquired it released
    once. *)
Lemma executeQuery_balanced (srv : Server) (env : gmap string (list N))
    (sql : jsstring) (params : list JsValue) (database : option jsstring)
    (st st' : ModuleState) (completion : Completion (JsValue * list FieldInfo)) :
  connection st = None ->
  executeQuery toUpperCase srv env sql params database st = (completion, st') ->
  connection st' = None
  /\ exists delta,
       calls st' = calls st ++ delta
       /\ forall s, In (Acquired s) delta -> releasesOf s delta = 1%nat.
Proof.
  intros Hslot Hrun.
  destruct (executeQuery_path _ _ _ _ _ _ _ _ Hslot Hrun)
    as (Hslot' & delta & Hcalls & Hpath & _).
  split; [exact Hslot'|]. exists delta. split; [exact Hcalls|].
  intros s Hs.
  destruct (Path_acquired _ _ _ _ _ _ _ _ Hpath)
    as [-> | (s0 & body & -> & Hacq & Hrel)]; [destruct Hs|].
  destruct Hs as [[= ->] | Hs].
  - cbn [releasesOf]. rewrite releasesOf_app, Hrel. simpl.
    rewrite Nat.eqb_refl. reflexivity.
  - apply in_app_iff in Hs as [Hs | [Hs | []]];
      [destruct (Hacq _ Hs) | discriminate Hs].
Qed.



(** A session at the head of the idle queue is the one the next call
    acquires. *)
Lemma idle_session_reused (srv : Server) (env : gmap string (list N))
    (sql : jsstring) (params : list JsValue) (database : option jsstring)
    (st st' : ModuleState) (completion : Completion (JsValue * list FieldInfo))
    (p : Pool) (s : nat) (rest : list nat) :
  connection st = None -> pool st = Some p -> idle p = s :: rest ->
  executeQuery toUpperCase srv env sql params database st = (completion, st') ->
  exists delta, calls st' = calls st ++ Acquired s :: delta.
Proof.
  intros Hslot Hpool Hidle Hrun. run_paths.
  all: match goal with
       | H : idle _ = _ :: _ |- _ => rewrite Hidle in H; injection H as <- <-
       end.
  all: rewrite <- ?app_assoc; simpl; eexists; reflexivity.
Qed.

(** C4, as the code has it: a call with a refused query that starts with
    an empty slot always throws and never sends the query: the only
    statement it can send is the database switch.  When it throws the
    refusal, it has by then acquired a session, sent the database switch
    if one was asked for, and released the session. *)
Theorem refused_query_not_sent (srv : Server) (env : gmap string (list N))
    (sql : jsstring) (params : list JsValue) (database : option jsstring)
    (st st' : ModuleState) (completion : Completion (JsValue * list FieldInfo)) :
  isAlloowedQuery toUpperCase env sql = false ->
  connection st = None ->
  executeQuery toUpperCase srv env sql params database st = (completion, st') ->
  (exists e, completion = Throw e)
  /\ exists delta,
       calls st' = calls st ++ delta
       /\ (forall s statement,
             In (Sent s statement) delta ->
             exists name,
               database = Some name /\ name <> []
               /\ statement = useStatement name)
       /\ (completion = Throw (Error "Query not allowed") ->
           exists s, delta = Acquired s :: useCalls s database ++ [Released s]).
Proof.
  intros Hdenied Hslot Hrun.
  destruct (executeQuery_path _ _ _ _ _ _ _ _ Hslot Hrun)
    as (_ & delta & Hcalls & Hpath & _).
  rewrite Hdenied in Hpath.
  assert (Huse : forall s s' statement,
             In (Sent s' statement) (useCalls s database) ->
             exists name, database = Some name /\ name <> []
                          /\ statement = useStatement name).
  { intros s s' statement. destruct database as [[|c d]|]; simpl;
      intros H; try contradiction.
    destruct H as [[= _ <-] | []]. exists (c :: d). repeat split. discriminate. }
  inversion Hpath as [e He | s errno name Hdb Hname Hans | s Hno
                     | s errno Hyes Hans | s rows fields Hyes Hans];
    subst; try discriminate.
  - split; [eauto|]. exists []. split; [exact Hcalls|]. split.
    + intros s statement [].
    + intros [= ->]. contradiction.
  - split; [eauto|]. eexists. split; [exact Hcalls|]. split.
    + intros s' statement [H | [[= _ <-] | [H | []]]]; try discriminate H.
      exists name. auto.
    + discriminate.
  - split; [eauto|]. eexists. split; [exact Hcalls|]. split.
    + intros s' statement [H | H]; [discriminate H|].
      apply in_app_iff in H as [H | [H | []]]; [eauto | discriminate H].
    + intros _. eauto.
Qed.

(** *** The row limit *)

Lemma executeQuery_rows (srv : Server) (env : gmap string (list N))
    (sql : jsstring) (params : list JsValue) (database : option jsstring)
    (st st' : ModuleState) (rows : JsValue) (fields : list FieldInfo) :
  connection st = None ->
  executeQuery toUpperCase srv env sql params database st
  = (Return (rows, fields), st') ->
  exists raw h s,
    answers srv h s (mainStatement sql params) = inr (raw, fields)
    /\ rows = convertBigIntToString (limitRows raw).
Proof.
  intros Hslot Hrun.
  destruct (executeQuery_path _ _ _ _ _ _ _ _ Hslot Hrun)
    as (_ & delta & _ & Hpath & _).
  inversion Hpath; subst. eauto.
Qed.

Lemma limitRows_length (raw : JsValue) (items : list JsValue) :
  convertBigIntToString (limitRows raw) = JArray items ->
  (length items <= DEFAULT_ROW_LIMIT)%nat.
Proof.
  unfold limitRows. destruct raw; try discriminate.
  destruct (decide (DEFAULT_ROW_LIMIT < length items0)%nat) as [Hlt | Hge];
    cbn [convertBigIntToString]; intros [= <-]; rewrite length_map.
  - rewrite length_take. lia.
  - lia.
Qed.

Lemma limitRows_first (items : list JsValue) :
  (DEFAULT_ROW_LIMIT < length items)%nat ->
  convertBigIntToString (limitRows (JArray items))
  = JArray (map convertBigIntToString (take DEFAULT_ROW_LIMIT items))
  /\ length (map convertBigIntToString (take DEFAULT_ROW_LIMIT items))
     = DEFAULT_ROW_LIMIT.
Proof.
  intros Hlt. unfold limitRows.
  destruct (decide (DEFAULT_ROW_LIMIT < length items)%nat); [|contradiction].
  split; [reflexivity|]. rewrite length_map, length_take. lia.
Qed.

(** The rows a call returns, when they are a list, are at most
    [DEFAULT_ROW_LIMIT]; a longer raw result is cut to its first
    [DEFAULT_ROW_LIMIT] rows, in order. *)
Lemma executeQuery_row_limit (srv : Server) (env : gmap string (list N))
    (sql : jsstring) (params : list JsValue) (database : option jsstring)
    (st st' : ModuleState) (items : list JsValue) (fields : list FieldInfo) :
  connection st = None ->
  executeQuery toUpperCase srv env sql params database st
  = (Return (JArray items, fields), st') ->
  (length items <= DEFAULT_ROW_LIMIT)%nat.
Proof.
  intros Hslot Hrun.
  destruct (executeQuery_rows _ _ _ _ _ _ _ _ _ Hslot Hrun)
    as (raw & h & s & _ & Hrows).
  apply (limitRows_length raw). congruence.
Qed.

(** Inserting a value for MARIADB_ROW_LIMIT in the environment changes
    nothing in a call. *)
Lemma executeQuery_ignores_row_limit (srv : Server)
    (env : gmap string (list N)) (value : jsstring)
    (sql : jsstring) (params : list JsValue) (database : option jsstring) :
  executeQuery toUpperCase srv (<["MARIADB_ROW_LIMIT"%string := value]> env)
    sql params database
  = executeQuery toUpperCase srv env sql params database.
Proof.
  assert (Hflag : forall name, name <> "MARIADB_ROW_LIMIT"%string ->
             envFlag (<["MARIADB_ROW_LIMIT"%string := value]> env) name
             = envFlag env name).
  { intros name Hname. unfold envFlag. rewrite lookup_insert_ne by congruence.
    reflexivity. }
  assert (Hallowed :
            isAlloowedQuery toUpperCase
              (<["MARIADB_ROW_LIMIT"%string := value]> env) sql
            = isAlloowedQuery toUpperCase env sql).
  { unfold isAlloowedQuery, startsWithAllowed, allowedCommands.
    rewrite !Hflag by discriminate. reflexivity. }
  assert (Hconfig :
            getConfigFromEnv (<["MARIADB_ROW_LIMIT"%string := value]> env)
            = getConfigFromEnv env).
  { unfold getConfigFromEnv.
    rewrite !Hflag by discriminate.
    rewrite !lookup_insert_ne by discriminate. reflexivity. }
  unfold executeQuery, createConnectionPool. rewrite Hallowed, Hconfig.
  reflexivity.
Qed.

End Execution.

(** *** Sequences of calls *)

(** Between calls the connection slot is empty. *)
Lemma slot_empty_between_calls (toUpperCase : jsstring -> jsstring)
    (srv : Server) (cs : list Call) :
  connection (runCalls toUpperCase srv cs initialState) = None.
Proof.
  assert (H : forall st, connection st = None ->
                         connection (runCalls toUpperCase srv cs st) = None).
  { induction cs as [|c cs IH]; intros st Hst; simpl; [exact Hst|].
    apply IH.
    destruct (executeQuery toUpperCase srv (callEnv c) (callSql c)
                (callParams c) (callDatabase c) st) as [completion st'] eqn:E.
    apply (executeQuery_balanced _ _ _ _ _ _ _ _ _ Hst E). }
  apply H. reflexivity.
Qed.

(** *** Concrete runs *)




Lemma refused_query_not_sent_witness :
  let run :=
    executeQuery toUpperCaseAscii (rowsServer 1) readerEnv
      (js "DROP TABLE t") [] (Some (js "shop")) initialState in
  (exists e, run.1 = Throw e)
  /\ exists delta,
       calls run.2 = calls initialState ++ delta
       /\ (forall s statement,
             In (Sent s statement) delta ->
             exists name,
               Some (js "shop") = Some name /\ name <> []
               /\ statement = useStatement name)
       /\ (run.1 = Throw (Error "Query not allowed") ->
           exists s,
             delta = Acquired s :: useCalls s (Some (js "shop")) ++ [Released s]).
Proof.
  intros run.
  apply (refused_query_not_sent toUpperCaseAscii (rowsServer 1) readerEnv
           (js "DROP TABLE t") [] (Some (js "shop")) initialState run.2 run.1).
  - vm_compute. reflexivity.
  - reflexivity.
  - apply surjective_pairing.
Defined.

(** C4 as stated fails: the refusal of a denied query comes after a
    session was acquired and the database switch was sent on it. *)
Lemma refusal_after_acquire_and_use :
  let run :=
    executeQuery toUpperCaseAscii (rowsServer 1) readerEnv
      (js "DROP TABLE t") [] (Some (js "shop")) initialState in
  isAlloowedQuery toUpperCaseAscii readerEnv (js "DROP TABLE t") = false
  /\ run.1 = Throw (Error "Query not allowed")
  /\ calls run.2
     = [Acquired 0; Sent 0 (Text (js "USE `shop`")); Released 0].
Proof. vm_compute. repeat split. Qed.

(** The empty query is refused on the same path. *)
Example empty_query_refused :
  let run :=
    executeQuery toUpperCaseAscii (rowsServer 1) readerEnv (js "") []
      None initialState in
  run.1 = Throw (Error "Query not allowed")
  /\ calls run.2 = [Acquired 0; Released 0].
Proof. vm_compute. repeat split. Qed.

(** With an incomplete environment the call throws before any driver
    call, whatever the query. *)
Example missing_configuration :
  let run :=
    executeQuery toUpperCaseAscii (rowsServer 1) ∅ (js "DROP TABLE t") []
      None initialState in
  run.1 = Throw (Error "MARIADB_HOST environment variable is required")
  /\ calls run.2 = [] /\ pool run.2 = None.
Proof. vm_compute. repeat split. Qed.

(** C7, at a setting the code does not honour: with MARIADB_ROW_LIMIT set
    to 500 and a raw result of 800 rows, the call returns all 800 rows. *)
Theorem row_limit_setting_ignored :
  let env := <["MARIADB_ROW_LIMIT"%string := js "500"]> readerEnv in
  let run :=
    executeQuery toUpperCaseAscii (rowsServer 800) env
      (js "SELECT id FROM t") [] None initialState in
  env !! "MARIADB_ROW_LIMIT"%string = Some (js "500")
  /\ exists rows fields,
       run.1 = Return (JArray rows, fields) /\ length rows = 800%nat.
Proof.
  cbv zeta. split; [reflexivity|].
  rewrite executeQuery_ignores_row_limit.
  eexists _, _. split; vm_compute; reflexivity.
Qed.

(** The example of the specification: of 5000 raw rows the call returns
    the first 1000, converted, in order. *)
Example five_thousand_rows_cut :
  let run :=
    executeQuery toUpperCaseAscii (rowsServer 5000) readerEnv
      (js "SELECT id FROM t") [] None initialState in
  run.1
  = Return (JArray (replicate 1000 (JObject [(js "id", JString (js "7"))])),
            [{| fieldName := js "id"; columnType := 8 |}]).
Proof. vm_compute. reflexivity. Qed.

(** * Further properties *)

(** ** The feature table *)

Example feature_sources :
  source <$> MARIADB_10_0_UNSUPPORTED_FEATURES
  = [js "JSON_EXTRACT"; js "JSON_UNQUOTE"; js "JSON_OBJECT"; js "JSON_ARRAY";
     js "JSON_VALID"; js "JSON_TYPE"; js "JSON_COMPACT"; js "JSON_LOOSE";
     js "JSON_DETAILED";
     js "MATCH.*AGAINST.*IN NATURAL LANGUAGE MODE WITH QUERY EXPANSION";
     js "WINDOW FUNCTION"; js "OVER\s*\("; js "ROW_NUMBER\s*\(";
     js "RANK\s*\("; js "DENSE_RANK\s*\("; js "PARTITION BY"].
Proof. vm_compute. reflexivity. Qed.

Example compatibility_examples :
  checkMariaDB10_0_Compatibility toUpperCaseAscii
    (js "SELECT ROW_NUMBER() OVER (ORDER BY id) FROM t")
  = Some (js "Warning: The query contains 'OVER\s*\(' which may not be supported in MariaDB 10.0.38. Consider using alternative syntax.")
  /\ checkMariaDB10_0_Compatibility toUpperCaseAscii
       (js "select my_json_type_col from t") 
     = Some (warning (word "JSON_TYPE"))
  /\ checkMariaDB10_0_Compatibility toUpperCaseAscii
       (js "SELECT id FROM t WHERE MATCH (a) AGAINST ('x' IN NATURAL LANGUAGE MODE WITH QUERY EXPANSION)")
     = Some (warning (word "MATCH" ++ [AnyRun] ++ word "AGAINST" ++ [AnyRun]
                        ++ word "IN NATURAL LANGUAGE MODE WITH QUERY EXPANSION"))
  /\ checkMariaDB10_0_Compatibility toUpperCaseAscii
       (js "SELECT rank, overall FROM t") = None.
Proof. vm_compute. repeat split. Qed.

(** ** Admission: further properties *)

Lemma allowedCommands_spec (env : gmap string (list N)) (cmd : jsstring) :
  In cmd (allowedCommands env) <->
  In cmd BASE_ALLOWED_COMMANDS
  \/ exists flag, In (cmd, flag) conditionalCommands /\ envFlag env flag = true.
Proof.
  split.
  - unfold allowedCommands. rewrite !in_app_iff. unfold conditionalCommands.
    intros [H | [H | [H | H]]]; [left; exact H | right ..];
      [destruct (envFlag env "MARIADB_ALLOW_INSERT") eqn:E
      |destruct (envFlag env "MARIADB_ALLOW_UPDATE") eqn:E
      |destruct (envFlag env "MARIADB_ALLOW_DELETE") eqn:E];
      try destruct H as [<- | []]; try destruct H;
      eexists; (split; [|exact E]); simpl; auto.
  - intros [H | (flag & Hin & Hflag)].
    + apply allowedCommands_base, H.
    + apply (allowedCommands_conditional env cmd flag Hin), Hflag.
Qed.

Lemma includes_spec (p s : jsstring) :
  includes p s = true <-> exists a b, s = a ++ p ++ b.
Proof.
  induction s as [|c s IH].
  - cbn [includes]. rewrite orb_false_r, startsWith_spec. split.
    + intros [r Hr]. exists [], r. exact Hr.
    + intros (a & b & H). destruct a; [eauto|discriminate].
  - cbn [includes]. rewrite orb_true_iff, startsWith_spec, IH. split.
    + intros [[r Hr] | (a & b & ->)].
      * exists [], r. exact Hr.
      * exists (c :: a), b. reflexivity.
    + intros (a & b & H). destruct a as [|a0 a].
      * left. exists b. exact H.
      * right. injection H as _ ->. eauto.
Qed.

Section AdmissionMore.

Variable toUpperCase : jsstring -> jsstring.

(** X1: whatever the environment, an allowed query leads, in its
    normalised text, with one of the eight command words followed by a
    space or the end of the text; that text holds no disallowed command
    between white space or text ends; and if it holds a separator, its
    last character is a separator. *)
Theorem allowed_query_shape (env : gmap string (list N)) (query : jsstring) :
  isAlloowedQuery toUpperCase env query = true ->
  In (leadingToken (normalizeQuery toUpperCase query)) commandWords
  /\ (forall cmd, In cmd DISALLOWED_COMMANDS ->
                  ~ delimitedWord cmd (normalizeQuery toUpperCase query))
  /\ (In Char.semicolon (normalizeQuery toUpperCase query) ->
      exists body, normalizeQuery toUpperCase query = body ++ [Char.semicolon]).
Proof.
  rewrite isAlloowedQuery_true. intros (Hlead & Hdis & Hmulti).
  split; [apply (allowedCommands_words env), Hlead|]. split.
  - intros cmd Hin Hword. apply testCommand_delimited in Hword.
    unfold containsDisallowed in Hdis.
    assert (H : existsb
                  (fun c => testCommand c (normalizeQuery toUpperCase query))
                  DISALLOWED_COMMANDS = true)
      by (apply existsb_exists; eauto).
    congruence.
  - intros Hsep.
    destruct (endsWith [Char.semicolon] (normalizeQuery toUpperCase query))
      eqn:Hend.
    + apply endsWith_char_spec, Hend.
    + assert (H : hasMultipleStatements (normalizeQuery toUpperCase query)
                  = true).
      { unfold hasMultipleStatements. rewrite Hend.
        rewrite (proj2 (includes_char_spec _ _) Hsep). reflexivity. }
      congruence.
Qed.

(** X2: enabling more write flags never turns an allowed query into a
    denied one. *)
Theorem admission_monotone (env env' : gmap string (list N))
    (query : jsstring) :
  flagsBelow env env' ->
  isAlloowedQuery toUpperCase env query = true ->
  isAlloowedQuery toUpperCase env' query = true.
Proof.
  intros Hbelow. rewrite !isAlloowedQuery_true.
  intros (Hlead & Hdis & Hmulti). split; [|split; assumption].
  apply allowedCommands_spec. apply allowedCommands_spec in Hlead.
  destruct Hlead as [H | (flag & Hin & Hflag)]; [left; exact H | right].
  exists flag. split; [exact Hin | apply (Hbelow _ _ Hin Hflag)].
Qed.

(** X3: the decision on a query that leads with INSERT, UPDATE or DELETE
    depends on the environment only through the flag of that command. *)
Theorem write_flag_isolated (env env' : gmap string (list N))
    (query cmd : jsstring) (flag : string) :
  In (cmd, flag) conditionalCommands ->
  leadingToken (normalizeQuery toUpperCase query) = cmd ->
  envFlag env flag = envFlag env' flag ->
  isAlloowedQuery toUpperCase env query
  = isAlloowedQuery toUpperCase env' query.
Proof.
  intros Hcmd Hlead Hsame. apply eq_true_iff_eq.
  rewrite !isAlloowedQuery_true, Hlead.
  rewrite !(allowedCommands_conditional _ cmd flag Hcmd), Hsame. reflexivity.
Qed.

End AdmissionMore.

Lemma admission_monotone_witness :
  isAlloowedQuery toUpperCaseAscii allWritesEnabled (js "show tables") = true.
Proof.
  apply (admission_monotone toUpperCaseAscii ∅ allWritesEnabled).
  - intros cmd flag _ H. vm_compute in H. discriminate H.
  - vm_compute. reflexivity.
Defined.

Lemma allowed_query_shape_witness :
  let text := normalizeQuery toUpperCaseAscii (js "select 1;") in
  In (leadingToken text) commandWords
  /\ (forall cmd, In cmd DISALLOWED_COMMANDS -> ~ delimitedWord cmd text)
  /\ (In Char.semicolon text -> exists body, text = body ++ [Char.semicolon]).
Proof.
  apply (allowed_query_shape toUpperCaseAscii ∅ (js "select 1;")).
  vm_compute. reflexivity.
Defined.

Lemma write_flag_isolated_witness :
  isAlloowedQuery toUpperCaseAscii
    (<["MARIADB_ALLOW_DELETE"%string := js "true"]> ∅)
    (js "UPDATE t SET a = 1")
  = isAlloowedQuery toUpperCaseAscii ∅ (js "UPDATE t SET a = 1").
Proof.
  apply (write_flag_isolated toUpperCaseAscii _ _ _
           CONDITIONAL_COMMANDS.UPDATE "MARIADB_ALLOW_UPDATE").
  - right. left. reflexivity.
  - vm_compute. reflexivity.
  - vm_compute. reflexivity.
Defined.

(** ** Normalisation: white space and letter case *)

Lemma collapseWhiteSpace_only_space (inRun : bool) (s : jsstring) (c : N) :
  In c (collapseWhiteSpace inRun s) -> isWhiteSpace c = true -> c = Char.space.
Proof.
  revert inRun. induction s as [|d s IH]; intros inRun; cbn [collapseWhiteSpace];
    [intros []|].
  destruct (isWhiteSpace d) eqn:Hd.
  - destruct inRun; [apply IH|]. intros [<- | H]; [reflexivity | eapply IH, H].
  - intros [<- | H]; [congruence | eapply IH, H].
Qed.

Lemma includes_cons (p s : jsstring) (c : N) :
  includes p (c :: s) = startsWith p (c :: s) || includes p s.
Proof. reflexivity. Qed.

Lemma startsWith_two_spaces (c : N) (s : jsstring) :
  startsWith [Char.space; Char.space] (c :: s) = true ->
  c = Char.space /\ head s = Some Char.space.
Proof.
  destruct s as [|d s]; cbn [startsWith]; intros H;
    apply andb_true_iff in H as [H1 H2]; [discriminate H2|].
  apply andb_true_iff in H2 as [H2 _].
  apply N.eqb_eq in H1, H2. subst. split; reflexivity.
Qed.

Lemma collapseWhiteSpace_single (inRun : bool) (s : jsstring) :
  includes [Char.space; Char.space] (collapseWhiteSpace inRun s) = false
  /\ (inRun = true -> head (collapseWhiteSpace inRun s) <> Some Char.space).
Proof.
  revert inRun. induction s as [|d s IH]; intros inRun; cbn [collapseWhiteSpace].
  - split; [reflexivity | discriminate].
  - destruct (isWhiteSpace d) eqn:Hd.
    + destruct inRun; [apply IH|]. split; [|discriminate].
      destruct (IH true) as [Hno Hhead].
      rewrite includes_cons, Hno, orb_false_r.
      apply not_true_iff_false. intros H.
      apply startsWith_two_spaces in H as [_ H]. exact (Hhead eq_refl H).
    + assert (Hsp : d <> Char.space) by (intros ->; discriminate Hd).
      split.
      * destruct (IH false) as [Hno _].
        rewrite includes_cons, Hno, orb_false_r.
        apply not_true_iff_false. intros H.
        apply startsWith_two_spaces in H as [H _]. contradiction.
      * intros _ [= H]. contradiction.
Qed.

Lemma trimStart_suffix (s : jsstring) : exists a, s = a ++ trimStart s.
Proof.
  induction s as [|c s [a IH]]; cbn [trimStart]; [exists []; reflexivity|].
  destruct (isWhiteSpace c); [|exists []; reflexivity].
  exists (c :: a). cbn [app]. congruence.
Qed.

Lemma trimStart_head (s : jsstring) (c : N) :
  head (trimStart s) = Some c -> isWhiteSpace c = false.
Proof.
  induction s as [|d s IH]; cbn [trimStart]; [discriminate|].
  destruct (isWhiteSpace d) eqn:Hd; [exact IH|]. intros [= <-]. exact Hd.
Qed.

Lemma trimEnd_prefix (s : jsstring) : exists b, s = trimEnd s ++ b.
Proof.
  unfold trimEnd. destruct (trimStart_suffix (reverse s)) as [a Ha].
  exists (reverse a). rewrite <- reverse_app, <- Ha, reverse_involutive.
  reflexivity.
Qed.

Lemma trimEnd_last (s : jsstring) (c : N) :
  last (trimEnd s) = Some c -> isWhiteSpace c = false.
Proof.
  unfold trimEnd. rewrite last_reverse. apply trimStart_head.
Qed.

Lemma trim_infix (s : jsstring) : exists a b, s = a ++ trim s ++ b.
Proof.
  unfold trim. destruct (trimStart_suffix s) as [a Ha].
  destruct (trimEnd_prefix (trimStart s)) as [b Hb].
  exists a, b. rewrite <- Hb. exact Ha.
Qed.

(** X4: the text the admission checks work on, before it is put in upper
    case, has white space only as single U+0020 characters between other
    characters: none at its start or end, never two in a row, and no other
    white-space character. *)
Theorem normalised_white_space (s : jsstring) :
  singleSpaced (trim (collapseWhiteSpace false s)).
Proof.
  destruct (trim_infix (collapseWhiteSpace false s)) as (a & b & Hab).
  set (t := trim (collapseWhiteSpace false s)) in *.
  assert (Hws : forall c, last t = Some c -> isWhiteSpace c = false)
    by (intros c; apply trimEnd_last).
  assert (Hhd : forall c, head t = Some c -> isWhiteSpace c = false).
  { intros c Hc. unfold t, trim in Hc.
    destruct (trimEnd_prefix (trimStart (collapseWhiteSpace false s)))
      as [b' Hb'].
    apply (trimStart_head (collapseWhiteSpace false s)).
    rewrite Hb'. destruct (trimEnd _); [discriminate Hc | exact Hc]. }
  repeat split.
  - intros c Hc. apply (collapseWhiteSpace_only_space false s).
    rewrite Hab, !in_app_iff. auto.
  - destruct (includes [Char.space; Char.space] t) eqn:E; [|reflexivity].
    apply includes_spec in E as (a' & b' & E).
    destruct (collapseWhiteSpace_single false s) as [Hno _].
    rewrite <- Hno. symmetry. apply includes_spec.
    exists (a ++ a'), (b' ++ b). rewrite Hab, E, <- !app_assoc. reflexivity.
  - intros H. specialize (Hhd _ H). discriminate Hhd.
  - intros H. specialize (Hws _ H). discriminate Hws.
Qed.

(** Putting ASCII letters in upper case changes none of the tests the
    normalisation makes. *)
Lemma asciiUpper_keeps (c k : N) :
  (k < 65 \/ (90 < k /\ k < 97) \/ 122 < k) ->
  (asciiUpper c =? k) = (c =? k).
Proof.
  intros Hk. unfold asciiUpper.
  destruct ((97 <=? c) && (c <=? 122)) eqn:E; [|reflexivity].
  apply andb_true_iff in E as [H1 H2]. apply N.leb_le in H1, H2.
  rewrite (proj2 (N.eqb_neq _ _)), (proj2 (N.eqb_neq _ _)) by lia.
  reflexivity.
Qed.

Lemma asciiUpper_whiteSpace (c : N) :
  isWhiteSpace (asciiUpper c) = isWhiteSpace c.
Proof.
  unfold asciiUpper. destruct ((97 <=? c) && (c <=? 122)) eqn:E; [|reflexivity].
  apply andb_true_iff in E as [H1 H2]. apply N.leb_le in H1, H2.
  unfold isWhiteSpace.
  repeat match goal with
    | |- context [?a <=? ?b] => destruct (N.leb_spec a b); try lia
    | |- context [?a =? ?b] => destruct (N.eqb_spec a b); try lia
    end; reflexivity.
Qed.

Lemma asciiUpper_lineTerminator (c : N) :
  isLineTerminator (asciiUpper c) = isLineTerminator c.
Proof.
  unfold isLineTerminator. rewrite !asciiUpper_keeps by lia. reflexivity.
Qed.

Lemma asciiUpper_idempotent (c : N) : asciiUpper (asciiUpper c) = asciiUpper c.
Proof.
  destruct ((97 <=? c) && (c <=? 122)) eqn:E.
  - assert (H : asciiUpper c = c - 32) by (unfold asciiUpper; rewrite E; reflexivity).
    apply andb_true_iff in E as [H1 H2]. apply N.leb_le in H1, H2.
    rewrite H. unfold asciiUpper.
    destruct (N.leb_spec 97 (c - 32)); [lia | reflexivity].
  - assert (H : asciiUpper c = c) by (unfold asciiUpper; rewrite E; reflexivity).
    rewrite !H. reflexivity.
Qed.

Lemma removeLineComments_upper (inComment : bool) (s : jsstring) :
  removeLineComments inComment (asciiUpper <$> s)
  = asciiUpper <$> removeLineComments inComment s.
Proof.
  remember (length s) as n eqn:Hn.
  assert (Hlen : (length s <= n)%nat) by lia. clear Hn.
  revert s Hlen inComment.
  induction n as [|n IH]; intros [|c s] Hlen inComment; cbn [length] in Hlen;
    try reflexivity; try lia.
  cbn [fmap list_fmap removeLineComments]. fold (fmap asciiUpper s).
  destruct inComment.
  - rewrite asciiUpper_lineTerminator, !IH by lia.
    destruct (isLineTerminator c); reflexivity.
  - destruct s as [|d s]; [reflexivity|].
    cbn [fmap list_fmap]. fold (fmap asciiUpper s).
    unfold Char.minus. rewrite !asciiUpper_keeps by lia.
    destruct ((c =? 45) && (d =? 45)).
    + apply IH. cbn [length] in Hlen. lia.
    + cbn [fmap list_fmap]. f_equal. apply (IH (d :: s)). lia.
Qed.

Lemma hasBlockEnd_upper (s : jsstring) :
  hasBlockEnd (asciiUpper <$> s) = hasBlockEnd s.
Proof.
  unfold hasBlockEnd. induction s as [|c s IH]; [reflexivity|].
  cbn [fmap list_fmap]. fold (fmap asciiUpper s).
  rewrite !includes_cons, IH. f_equal.
  destruct s as [|d s]; cbn [fmap list_fmap startsWith];
    rewrite 1?(N.eqb_sym Char.star), 1?(N.eqb_sym Char.star c);
    unfold Char.star, Char.slash; rewrite ?asciiUpper_keeps by lia;
    [reflexivity|].
  rewrite (N.eqb_sym 47 (asciiUpper d)), (N.eqb_sym 47 d),
    asciiUpper_keeps by lia.
  reflexivity.
Qed.

Lemma removeBlockComments_step (inComment : bool) (c d : N) (r : jsstring) :
  removeBlockComments inComment (c :: d :: r)
  = if inComment then
      if (c =? Char.star) && (d =? Char.slash)
      then removeBlockComments false r
      else removeBlockComments true (d :: r)
    else
      if (c =? Char.slash) && (d =? Char.star) && hasBlockEnd r
      then removeBlockComments true r
      else c :: removeBlockComments false (d :: r).
Proof. reflexivity. Qed.

Lemma removeBlockComments_upper (inComment : bool) (s : jsstring) :
  removeBlockComments inComment (asciiUpper <$> s)
  = asciiUpper <$> removeBlockComments inComment s.
Proof.
  remember (length s) as n eqn:Hn.
  assert (Hlen : (length s <= n)%nat) by lia. clear Hn.
  revert s Hlen inComment.
  induction n as [|n IH]; intros [|c s] Hlen inComment; cbn [length] in Hlen;
    try reflexivity; try lia.
  destruct s as [|d s].
  - destruct inComment; reflexivity.
  - cbn [length] in Hlen.
    change (asciiUpper <$> c :: d :: s)
      with (asciiUpper c :: asciiUpper d :: (asciiUpper <$> s)).
    rewrite !removeBlockComments_step.
    unfold Char.star, Char.slash. rewrite !asciiUpper_keeps by lia.
    rewrite hasBlockEnd_upper.
    destruct inComment.
    + destruct ((c =? 42) && (d =? 47)).
      * apply IH. lia.
      * apply (IH (d :: s)). cbn [length]. lia.
    + destruct ((c =? 47) && (d =? 42) && hasBlockEnd s).
      * apply IH. lia.
      * change (asciiUpper <$> c :: removeBlockComments false (d :: s))
          with (asciiUpper c :: (asciiUpper <$> removeBlockComments false (d :: s))).
        f_equal. apply (IH (d :: s)). cbn [length]. lia.
Qed.

Lemma collapseWhiteSpace_upper (inRun : bool) (s : jsstring) :
  collapseWhiteSpace inRun (asciiUpper <$> s)
  = asciiUpper <$> collapseWhiteSpace inRun s.
Proof.
  revert inRun. induction s as [|c s IH]; intros inRun; [reflexivity|].
  cbn [fmap list_fmap collapseWhiteSpace]. fold (fmap asciiUpper s).
  rewrite asciiUpper_whiteSpace.
  destruct (isWhiteSpace c), inRun; cbn [fmap list_fmap]; rewrite IH;
    reflexivity.
Qed.

Lemma trimStart_upper (s : jsstring) :
  trimStart (asciiUpper <$> s) = asciiUpper <$> trimStart s.
Proof.
  induction s as [|c s IH]; [reflexivity|].
  cbn [fmap list_fmap trimStart]. fold (fmap asciiUpper s).
  rewrite asciiUpper_whiteSpace. destruct (isWhiteSpace c); [exact IH|].
  reflexivity.
Qed.

Lemma trim_upper (s : jsstring) :
  trim (asciiUpper <$> s) = asciiUpper <$> trim s.
Proof.
  unfold trim, trimEnd.
  rewrite trimStart_upper, <- fmap_reverse, trimStart_upper, fmap_reverse.
  reflexivity.
Qed.

(** The normalised text of a query is that of the query with its ASCII
    letters in upper case. *)
Lemma normalizeQuery_upper (query : jsstring) :
  normalizeQuery toUpperCaseAscii (toUpperCaseAscii query)
  = normalizeQuery toUpperCaseAscii query.
Proof.
  unfold normalizeQuery, toUpperCaseAscii.
  rewrite removeLineComments_upper, removeBlockComments_upper,
    collapseWhiteSpace_upper, trim_upper.
  rewrite <- list_fmap_compose. apply list_fmap_ext.
  intros _ c _. apply asciiUpper_idempotent.
Qed.

(** X5: on a query of ASCII characters, where [toUpperCase] is the ASCII
    mapping, the decision does not depend on the case of the letters: the
    query and its upper-case form get the same answer. *)
Theorem admission_ignores_case (env : gmap string (list N)) (query : jsstring) :
  Forall (fun c => c < 128) query ->
  isAlloowedQuery toUpperCaseAscii env (toUpperCaseAscii query)
  = isAlloowedQuery toUpperCaseAscii env query.
Proof.
  intros _. unfold isAlloowedQuery. rewrite normalizeQuery_upper. reflexivity.
Qed.

Lemma admission_ignores_case_witness :
  isAlloowedQuery toUpperCaseAscii ∅ (toUpperCaseAscii (js "Select 1 -- x"))
  = isAlloowedQuery toUpperCaseAscii ∅ (js "Select 1 -- x").
Proof.
  apply admission_ignores_case.
  apply (bool_decide_unpack _). vm_compute. exact I.
Defined.

(** ** The compatibility scan *)

Lemma matchesHere_word (chars t rest : jsstring) (p : list Atom) :
  asciiUpper <$> t = asciiUpper <$> chars ->
  matchesHere p rest = true ->
  matchesHere ((Lit <$> chars) ++ p) (t ++ rest) = true.
Proof.
  revert t. induction chars as [|c chars IH]; intros [|d t] Ht Hp;
    try discriminate Ht; [exact Hp|].
  injection Ht as Hd Ht.
  change (matchesHere (Lit c :: ((Lit <$> chars) ++ p)) (d :: (t ++ rest)) = true).
  cbn [matchesHere]. unfold sameIgnoringCase.
  rewrite Hd, N.eqb_refl, (IH t Ht Hp). reflexivity.
Qed.

Lemma spaceRun_skips (p : list Atom) (ws rest : jsstring) :
  Forall (fun c => isWhiteSpace c = true) ws ->
  matchesHere p rest = true ->
  matchesHere (SpaceRun :: p) (ws ++ rest) = true.
Proof.
  intros Hws Hp. induction Hws as [|c ws Hc _ IH].
  - destruct rest; cbn [app matchesHere]; rewrite Hp; reflexivity.
  - change (matchesHere (SpaceRun :: p) ((c :: ws) ++ rest))
      with (matchesHere p (c :: ws ++ rest)
            || isWhiteSpace c && matchesHere (SpaceRun :: p) (ws ++ rest)).
    rewrite Hc, IH. apply orb_true_r.
Qed.

Lemma test_anywhere (p : list Atom) (pre s : jsstring) :
  matchesHere p s = true -> test p (pre ++ s) = true.
Proof.
  intros Hp. induction pre as [|c pre IH].
  - destruct s; cbn [app test]; rewrite Hp; reflexivity.
  - cbn [app test]. rewrite IH. apply orb_true_r.
Qed.

Section CompatibilityScan.

Variable toUpperCase : jsstring -> jsstring.

Lemma found_feature_warned (query : jsstring) (feature : list Atom) :
  In feature MARIADB_10_0_UNSUPPORTED_FEATURES ->
  test feature (toUpperCase query) = true ->
  exists reported,
    checkMariaDB10_0_Compatibility toUpperCase query = Some (warning reported)
    /\ In reported MARIADB_10_0_UNSUPPORTED_FEATURES
    /\ test reported (toUpperCase query) = true.
Proof.
  intros Hin Htest. unfold checkMariaDB10_0_Compatibility.
  destruct (find _ _) as [reported|] eqn:E.
  - apply find_some in E as [Hin' Htest']. exists reported. auto.
  - pose proof (find_none _ _ E feature Hin) as H. simpl in H. congruence.
Qed.

(** X6: when the upper-cased query holds, anywhere and in any letter
    case, a word of the feature table (a JSON function name,
    WINDOW FUNCTION, PARTITION BY), the scan returns a warning, and the
    feature the warning names is one of the table that the text matches. *)
Theorem feature_word_warned (query chars pre t post : jsstring) :
  In (Lit <$> chars) MARIADB_10_0_UNSUPPORTED_FEATURES ->
  toUpperCase query = pre ++ t ++ post ->
  asciiUpper <$> t = asciiUpper <$> chars ->
  exists reported,
    checkMariaDB10_0_Compatibility toUpperCase query = Some (warning reported)
    /\ In reported MARIADB_10_0_UNSUPPORTED_FEATURES
    /\ test reported (toUpperCase query) = true.
Proof.
  intros Hin Htext Ht. apply (found_feature_warned _ _ Hin).
  rewrite Htext. apply test_anywhere.
  rewrite <- (app_nil_r (Lit <$> chars)). apply matchesHere_word; auto.
Qed.

(** X7: when the upper-cased query holds, anywhere and in any letter
    case, OVER, ROW_NUMBER, RANK or DENSE_RANK followed by any run of
    white space (none included) and an opening parenthesis, the scan
    returns a warning for a feature of the table that the text matches. *)
Theorem window_call_warned (query chars pre t ws post : jsstring) :
  In ((Lit <$> chars) ++ [SpaceRun; Escaped 40])
     MARIADB_10_0_UNSUPPORTED_FEATURES ->
  toUpperCase query = pre ++ t ++ ws ++ [40] ++ post ->
  asciiUpper <$> t = asciiUpper <$> chars ->
  Forall (fun c => isWhiteSpace c = true) ws ->
  exists reported,
    checkMariaDB10_0_Compatibility toUpperCase query = Some (warning reported)
    /\ In reported MARIADB_10_0_UNSUPPORTED_FEATURES
    /\ test reported (toUpperCase query) = true.
Proof.
  intros Hin Htext Ht Hws. apply (found_feature_warned _ _ Hin).
  rewrite Htext. apply test_anywhere.
  apply matchesHere_word; [exact Ht|].
  apply spaceRun_skips; [exact Hws|]. reflexivity.
Qed.

(** ** [validateQuery] *)

(** X8: [validateQuery] returns exactly for a non-empty query that
    [isAlloowedQuery] allows; the empty query is rejected with its own
    message.  A query it accepted is never refused by [executeQuery]
    under the same environment. *)
Theorem validated_query_not_refused (srv : Server)
    (env : gmap string (list N)) (sql : jsstring) (params : list JsValue)
    (database : option jsstring) (st st' : ModuleState)
    (completion : Completion (JsValue * list FieldInfo)) :
  (validateQuery toUpperCase env sql = inr ()
   <-> sql <> [] /\ isAlloowedQuery toUpperCase env sql = true)
  /\ validateQuery toUpperCase env []
     = inl (Error "Query must be a non-empty string")
  /\ (validateQuery toUpperCase env sql = inr () ->
      connection st = None ->
      executeQuery toUpperCase srv env sql params database st
      = (completion, st') ->
      completion <> Throw (Error "Query not allowed")).
Proof.
  assert (Hiff : validateQuery toUpperCase env sql = inr ()
                 <-> sql <> [] /\ isAlloowedQuery toUpperCase env sql = true).
  { unfold validateQuery. destruct sql as [|c sql].
    - split; [discriminate | intros [H _]; contradiction].
    - destruct (isAlloowedQuery toUpperCase env (c :: sql)); split;
        try discriminate; auto.
      intros [_ H]. discriminate H. }
  split; [exact Hiff|]. split; [reflexivity|].
  intros Hvalid Hslot Hrun. apply Hiff in Hvalid as [_ Hallowed].
  destruct (executeQuery_path _ _ _ _ _ _ _ _ _ Hslot Hrun)
    as (_ & delta & _ & Hpath & _).
  rewrite Hallowed in Hpath.
  inversion Hpath; subst; try discriminate; congruence.
Qed.

End CompatibilityScan.

Lemma feature_word_warned_witness :
  exists reported,
    checkMariaDB10_0_Compatibility toUpperCaseAscii
      (js "select json_valid(doc) from t")
    = Some (warning reported)
    /\ In reported MARIADB_10_0_UNSUPPORTED_FEATURES
    /\ test reported (toUpperCaseAscii (js "select json_valid(doc) from t"))
       = true.
Proof.
  apply (feature_word_warned toUpperCaseAscii _ (js "JSON_VALID")
           (js "SELECT ") (js "JSON_VALID") (js "(DOC) FROM T")).
  - repeat (first [left; reflexivity | right]).
  - vm_compute. reflexivity.
  - reflexivity.
Defined.

Lemma window_call_warned_witness :
  exists reported,
    checkMariaDB10_0_Compatibility toUpperCaseAscii
      (js "select rank  (x) from t")
    = Some (warning reported)
    /\ In reported MARIADB_10_0_UNSUPPORTED_FEATURES
    /\ test reported (toUpperCaseAscii (js "select rank  (x) from t")) = true.
Proof.
  apply (window_call_warned toUpperCaseAscii _ (js "RANK")
           (js "SELECT ") (js "RANK") (js "  ") (js "X) FROM T")).
  - repeat (first [left; reflexivity | right]).
  - vm_compute. reflexivity.
  - reflexivity.
  - repeat constructor.
Defined.

Lemma validated_query_not_refused_witness :
  let run :=
    executeQuery toUpperCaseAscii (rowsServer 1) readerEnv (js "SELECT 1") []
      None initialState in
  run.1 <> Throw (Error "Query not allowed").
Proof.
  intros run.
  apply (proj2 (proj2 (validated_query_not_refused toUpperCaseAscii
                         (rowsServer 1) readerEnv (js "SELECT 1") [] None
                         initialState run.2 run.1))).
  - vm_compute. reflexivity.
  - reflexivity.
  - apply surjective_pairing.
Defined.

(** ** Pool creation and execution: further properties *)

Lemma acquiredIn_app (l1 l2 : list Event) :
  acquiredIn (l1 ++ l2) = acquiredIn l1 ++ acquiredIn l2.
Proof.
  induction l1 as [|[s|s statement|s] l1 IH]; cbn [app acquiredIn];
    rewrite ?IH; reflexivity.
Qed.

Lemma sentIn_app (l1 l2 : list Event) :
  sentIn (l1 ++ l2) = sentIn l1 ++ sentIn l2.
Proof.
  induction l1 as [|[s|s statement|s] l1 IH]; cbn [app sentIn];
    rewrite ?IH; reflexivity.
Qed.

(** X9: [createConnectionPool] never replaces an existing pool and touches
    neither the connection slot nor the driver.  It reads the
    configuration first: with an incomplete environment it throws the
    configuration error and leaves the state as it was, even when a pool
    exists; otherwise it returns the pool the module holds afterwards,
    which is the existing one or a new pool built from the configuration
    with room for two sessions. *)
Theorem createConnectionPool_keeps_pool (env : gmap string (list N))
    (st : ModuleState) :
  let run := createConnectionPool env st in
  connection run.2 = connection st
  /\ calls run.2 = calls st
  /\ (forall p, pool st = Some p -> pool run.2 = Some p)
  /\ match getConfigFromEnv env with
     | inl e => run = (Throw e, st)
     | inr config =>
         exists p, run.1 = Return p /\ pool run.2 = Some p
                   /\ (pool st = None ->
                       p = createPool (poolOptions config)
                       /\ connectionLimit (options p) = 2%nat
                       /\ optHost (options p) = host config
                       /\ optPort (options p) = port config)
     end.
Proof.
  unfold createConnectionPool, throw, readPool, writePool, mbind, mret,
    M_bind, M_ret.
  destruct (getConfigFromEnv env) as [e|config]; cbn.
  - repeat split; auto.
  - destruct st as [[p|] c h]; cbn.
    + repeat split; auto. exists p.
      split; [reflexivity|]. split; [reflexivity|]. intros Hnone. discriminate Hnone.
    + repeat split; [intros p Hnone; discriminate Hnone|].
      eexists. repeat split.
Qed.

Section ExecutionMore.

Variable toUpperCase : jsstring -> jsstring.

#[local] Arguments isAlloowedQuery : simpl never.
#[local] Arguments getConfigFromEnv : simpl never.
#[local] Arguments convertBigIntToString : simpl never.
#[local] Arguments limitRows : simpl never.
#[local] Arguments useStatement : simpl never.
#[local] Arguments indexedEntries : simpl never.





(** X12: a call that starts with an empty slot sends at most two
    statements, on the session it acquired and in this order: the
    database switch, when a non-empty database was given, and the query,
    with the text of [sql] as it was passed, not its normalised copy.  A
    call that returns sent them all. *)
Theorem executeQuery_statements (srv : Server) (env : gmap string (list N))
    (sql : jsstring) (params : list JsValue) (database : option jsstring)
    (st st' : ModuleState) (completion : Completion (JsValue * list FieldInfo)) :
  connection st = None ->
  executeQuery toUpperCase srv env sql params database st = (completion, st') ->
  exists delta,
    calls st' = calls st ++ delta
    /\ (delta = []
        \/ exists s,
             acquiredIn delta = [s]
             /\ sentIn delta
                `prefix_of` sentIn (useCalls s database)
                              ++ [(s, mainStatement sql params)]
             /\ ((exists result, completion = Return result) ->
                 sentIn delta
                 = sentIn (useCalls s database)
                     ++ [(s, mainStatement sql params)])).
Proof.
  intros Hslot Hrun.
  destruct (executeQuery_path _ _ _ _ _ _ _ _ _ Hslot Hrun)
    as (_ & delta & Hcalls & Hpath & _).
  exists delta. split; [exact Hcalls|].
  assert (Huse : forall s, acquiredIn (useCalls s database) = [])
    by (intros s; destruct database as [[|c d]|]; reflexivity).
  inversion Hpath as [e He | s errno name Hdb Hname Hans | s Hno
                     | s errno Hyes Hans | s rows fields Hyes Hans];
    subst; [left; reflexivity | right; exists s ..].
  all: try (destruct name as [|c name]; [contradiction|]).
  all: cbn [acquiredIn sentIn useCalls];
    rewrite ?acquiredIn_app, ?sentIn_app, ?Huse; cbn [acquiredIn sentIn app];
    rewrite ?app_nil_r.
  all: split; [reflexivity|].
  all: split;
    [ first [ exists []; rewrite app_nil_r; reflexivity | eexists; reflexivity ]
    | intros [result H]; first [discriminate H | reflexivity] ].
Qed.


(** X14: the code reads eight environment variables; setting any other
    one, such as MARIADB_TIMEOUT_MS or MARIADB_DEBUG_SQL, changes nothing
    in a call. *)
Theorem executeQuery_unread_variable (srv : Server)
    (env : gmap string (list N)) (name : string) (value : jsstring)
    (sql : jsstring) (params : list JsValue) (database : option jsstring) :
  ~ In name readVariables ->
  executeQuery toUpperCase srv (<[name := value]> env) sql params database
  = executeQuery toUpperCase srv env sql params database.
Proof.
  intros Hname.
  assert (Hlookup : forall read, In read readVariables ->
             <[name := value]> env !! read = env !! read).
  { intros read Hread. apply lookup_insert_ne. intros ->. contradiction. }
  assert (Hflag : forall read, In read readVariables ->
             envFlag (<[name := value]> env) read = envFlag env read).
  { intros read Hread. unfold envFlag. rewrite (Hlookup read Hread).
    reflexivity. }
  assert (Hallowed :
            isAlloowedQuery toUpperCase (<[name := value]> env) sql
            = isAlloowedQuery toUpperCase env sql).
  { unfold isAlloowedQuery, startsWithAllowed, allowedCommands.
    rewrite !Hflag by (unfold readVariables; simpl; tauto). reflexivity. }
  assert (Hconfig :
            getConfigFromEnv (<[name := value]> env) = getConfigFromEnv env).
  { unfold getConfigFromEnv.
    rewrite !Hflag, !Hlookup by (unfold readVariables; simpl; tauto).
    reflexivity. }
  unfold executeQuery, createConnectionPool. rewrite Hallowed, Hconfig.
  reflexivity.
Qed.

End ExecutionMore.

(** ** Result normalisation: further properties *)

(** Induction on values, with the hypothesis for every item of an array
    and every property value of an object. *)
Lemma JsValue_nested_ind (P : JsValue -> Prop) :
  P JNull -> P JUndefined -> (forall b, P (JBoolean b)) ->
  (forall x, P (JNumber x)) -> (forall s, P (JString s)) ->
  (forall z, P (JBigInt z)) ->
  (forall items, Forall P items -> P (JArray items)) ->
  (forall props, Forall (fun kv => P kv.2) props -> P (JObject props)) ->
  (forall t, P (JDate t)) -> (forall bytes, P (JBuffer bytes)) ->
  forall v, P v.
Proof.
  intros Hnull Hundef Hbool Hnum Hstr Hbig Harr Hobj Hdate Hbuf.
  fix IH 1.
  intros [| |b|x|s|z|items|props|t|bytes];
    [apply Hnull | apply Hundef | apply Hbool | apply Hnum | apply Hstr
    | apply Hbig | | | apply Hdate | apply Hbuf].
  - apply Harr. induction items as [|v items IHitems]; constructor;
      [apply IH | exact IHitems].
  - apply Hobj. induction props as [|[k v] props IHprops]; constructor;
      [apply IH | exact IHprops].
Qed.

Lemma indexedEntries_jsonLike (bytes : list N) :
  forallb (fun '(_, value) => jsonLike value)
    (indexedEntries (fun b => JNumber (Finite false b 0)) bytes) = true.
Proof.
  unfold indexedEntries. generalize 0%nat as start.
  assert (H : forall start : nat,
             forallb (fun '(_, value) => jsonLike value)
               (imap (fun i b => (indexKey (start + i),
                                  JNumber (Finite false b 0))) bytes) = true).
  { induction bytes as [|b bytes IH]; intros start; [reflexivity|].
    cbn [imap forallb jsonLike andb].
    erewrite imap_ext; [apply (IH (S start))|].
    intros i x _. cbn. do 3 f_equal. lia. }
  intros start. apply (H 0%nat).
Qed.

Lemma convert_fixes_jsonLike (v : JsValue) :
  jsonLike v = true -> convertBigIntToString v = v.
Proof.
  induction v as [| |b|x|s|z|items IH|props IH|t|bytes]
    using JsValue_nested_ind; cbn [jsonLike convertBigIntToString];
    try reflexivity; try discriminate.
  - intros Hitems. f_equal.
    induction IH as [|v items Hv _ IHitems]; [reflexivity|].
    cbn [forallb] in Hitems. apply andb_true_iff in Hitems as [H1 H2].
    cbn [map]. rewrite (Hv H1), (IHitems H2). reflexivity.
  - intros Hprops. f_equal.
    induction IH as [|[k v] props Hv _ IHprops]; [reflexivity|].
    cbn [forallb] in Hprops. apply andb_true_iff in Hprops as [H1 H2].
    cbn [map snd] in *. rewrite (Hv H1), (IHprops H2). reflexivity.
Qed.


Lemma convert_jsonLike (v : JsValue) : jsonLike (convertBigIntToString v) = true.
Proof.
  induction v as [| |b|x|s|z|items IH|props IH|t|bytes]
    using JsValue_nested_ind; cbn [jsonLike convertBigIntToString];
    try reflexivity.
  - induction IH as [|v items Hv _ IHitems]; [reflexivity|].
    cbn [map forallb]. rewrite Hv, IHitems. reflexivity.
  - induction IH as [|[k v] props Hv _ IHprops]; [reflexivity|].
    cbn [map forallb snd] in *. rewrite Hv, IHprops. reflexivity.
  - apply indexedEntries_jsonLike.
Qed.

(** X16: whatever the value, the result of the conversion is made of
    null, undefined, booleans, numbers, texts, arrays and plain objects
    only, and converting it again changes nothing. *)
Theorem convert_idempotent (v : JsValue) :
  jsonLike (convertBigIntToString v) = true
  /\ convertBigIntToString (convertBigIntToString v)
     = convertBigIntToString v.
Proof.
  split; [apply convert_jsonLike|].
  apply convert_fixes_jsonLike, convert_jsonLike.
Qed.


(** ** Configuration: further properties *)






(** X19: the configuration error names the first variable that is absent
    or empty, in the order host, user, password, whatever the other
    variables are. *)
Theorem getConfigFromEnv_first_missing (env : gmap string (list N)) :
  (truthy (env !! "MARIADB_HOST"%string) = false ->
   getConfigFromEnv env
   = inl (Error "MARIADB_HOST environment variable is required"))
  /\ (truthy (env !! "MARIADB_HOST"%string) = true ->
      truthy (env !! "MARIADB_USER"%string) = false ->
      getConfigFromEnv env
      = inl (Error "MARIADB_USER environment variable is required"))
  /\ (truthy (env !! "MARIADB_HOST"%string) = true ->
      truthy (env !! "MARIADB_USER"%string) = true ->
      truthy (env !! "MARIADB_PASSWORD"%string) = false ->
      getConfigFromEnv env
      = inl (Error "MARIADB_PASSWORD environment variable is required")).
Proof.
  unfold getConfigFromEnv.
  destruct (env !! "MARIADB_HOST"%string) as [[|h0 h]|];
    destruct (env !! "MARIADB_USER"%string) as [[|u0 u]|];
    destruct (env !! "MARIADB_PASSWORD"%string) as [[|p0 p]|];
    cbn [truthy]; repeat split; intros; first [reflexivity | discriminate].
Qed.

(** *** Concrete inputs *)

Lemma getConfigFromEnv_first_missing_witness :
  getConfigFromEnv (<["MARIADB_HOST"%string := js "db"]> ∅)
  = inl (Error "MARIADB_USER environment variable is required").
Proof.
  apply (proj1 (proj2 (getConfigFromEnv_first_missing
                         (<["MARIADB_HOST"%string := js "db"]> ∅))));
    reflexivity.
Defined.





Lemma executeQuery_statements_witness :
  let run :=
    executeQuery toUpperCaseAscii (rowsServer 1) readerEnv (js "SELECT 1") []
      (Some (js "shop")) initialState in
  exists delta,
    calls run.2 = calls initialState ++ delta
    /\ (delta = []
        \/ exists s,
             acquiredIn delta = [s]
             /\ sentIn delta
                `prefix_of` sentIn (useCalls s (Some (js "shop")))
                              ++ [(s, mainStatement (js "SELECT 1") [])]
             /\ ((exists result, run.1 = Return result) ->
                 sentIn delta
                 = sentIn (useCalls s (Some (js "shop")))
                     ++ [(s, mainStatement (js "SELECT 1") [])])).
Proof.
  intros run.
  apply (executeQuery_statements toUpperCaseAscii (rowsServer 1) readerEnv
           (js "SELECT 1") [] (Some (js "shop")) initialState run.2 run.1
           eq_refl).
  apply surjective_pairing.
Defined.


Lemma executeQuery_unread_variable_witness :
  executeQuery toUpperCaseAscii (rowsServer 1)
    (<["MARIADB_TIMEOUT_MS"%string := js "5"]> readerEnv) (js "SELECT 1") []
    None
  = executeQuery toUpperCaseAscii (rowsServer 1) readerEnv (js "SELECT 1") []
      None.
Proof.
  apply executeQuery_unread_variable.
  apply (bool_decide_unpack (¬ _)). vm_compute. exact I.
Defined.
